(** * Deal ingestion from a spreadsheet: the pipeline of [lib/google-sheets]

    A shallow embedding of [extractSpreadsheetId], [fetchGoogleSheetData]
    and [validateGoogleSheetConnection], with the part of the JavaScript
    semantics these functions rely on: strings and their trimming, the
    regular-expression searches of the locator, IEEE 754 binary64 numbers
    with [parseFloat], [parseInt] and [ToNumber], truthiness, objects as
    finite maps from property names to values, and the network as an oracle
    whose requests are logged.

    Conventions.  A JavaScript string is a Rocq [string], one character per
    code unit, for code units below 256; among these the white space and
    line terminators are U+0009 to U+000D, U+0020 and U+00A0.  A
    JavaScript number is a [spec_float] at precision 53 and maximal exponent
    1024, and decimal literals are rounded to nearest, ties to even.  A cell
    of the sheet is a JSON scalar: [null], a boolean, a number or a string. *)

From Stdlib Require Import ZArith Ascii String List Bool Lia.
From Stdlib Require Import Decimal DecimalString DecimalNat DecimalZ.
From Stdlib Require Import Floats.SpecFloat.
From stdpp Require Import base option list strings gmap.

Local Open Scope string_scope.
Local Open Scope Z_scope.

(** ** Strings *)

Module Str.

(** The code units removed by [String.prototype.trim] and skipped by
    [parseInt] and [parseFloat]: tab, line feed, vertical tab, form feed,
    carriage return, space and no-break space. *)
Definition is_white_space (c : ascii) : bool :=
  let n := nat_of_ascii c in
  ((9 <=? n)%nat && (n <=? 13)%nat) || (n =? 32)%nat || (n =? 160)%nat.

Definition is_digit (c : ascii) : bool :=
  let n := nat_of_ascii c in (48 <=? n)%nat && (n <=? 57)%nat.

Definition is_lower (c : ascii) : bool :=
  let n := nat_of_ascii c in (97 <=? n)%nat && (n <=? 122)%nat.

Definition is_upper (c : ascii) : bool :=
  let n := nat_of_ascii c in (65 <=? n)%nat && (n <=? 90)%nat.

(** [s.includes(c)] for a one-character needle. *)
Fixpoint includes (c : ascii) (s : string) : bool :=
  match s with
  | EmptyString => false
  | String a s' => Ascii.eqb a c || includes c s'
  end.

(** The longest prefix whose characters satisfy [f], and the rest. *)
Fixpoint span (f : ascii -> bool) (s : string) : string * string :=
  match s with
  | EmptyString => (EmptyString, EmptyString)
  | String a s' =>
      if f a then let '(p, r) := span f s' in (String a p, r)
      else (EmptyString, s)
  end.

Fixpoint all (f : ascii -> bool) (s : string) : bool :=
  match s with
  | EmptyString => true
  | String a s' => f a && all f s'
  end.

(** [strip_prefix p s] is the rest of [s] after its prefix [p]. *)
Fixpoint strip_prefix (p s : string) : option string :=
  match p, s with
  | EmptyString, _ => Some s
  | String a p', String b s' =>
      if Ascii.eqb a b then strip_prefix p' s' else None
  | String _ _, EmptyString => None
  end.

Definition trim_start (s : string) : string := snd (span is_white_space s).

(** White space is dropped at the end when nothing but white space
    follows. *)
Fixpoint trim_end (s : string) : string :=
  match s with
  | EmptyString => EmptyString
  | String a s' =>
      match trim_end s' with
      | EmptyString => if is_white_space a then EmptyString else String a EmptyString
      | r => String a r
      end
  end.

Definition trim (s : string) : string := trim_end (trim_start s).

(** [s.replace(/[$,]/g, '')]: every character of the class is deleted. *)
Fixpoint remove_all (f : ascii -> bool) (s : string) : string :=
  match s with
  | EmptyString => EmptyString
  | String a s' => if f a then remove_all f s' else String a (remove_all f s')
  end.

Definition is_empty (s : string) : bool :=
  match s with EmptyString => true | _ => false end.

Definition head_satisfies (f : ascii -> bool) (s : string) : bool :=
  match s with EmptyString => false | String a _ => f a end.

Fixpoint last_satisfies (f : ascii -> bool) (s : string) : bool :=
  match s with
  | EmptyString => false
  | String a EmptyString => f a
  | String _ s' => last_satisfies f s'
  end.

End Str.

(** ** Numbers: IEEE 754 binary64 *)

Module Num.

Definition number : Type := spec_float.

Definition prec : Z := 53.
Definition emax : Z := 1024.

Definition NaN : number := S754_nan.
Definition zero : number := S754_zero false.
Definition infinity (neg : bool) : number := S754_infinity neg.

(** The number nearest to the integer [z]. *)
Definition of_Z (z : Z) : number := binary_normalize prec emax z 0 false.

(** The number nearest to [(-1)^neg * m * 10^e], for [m >= 0]; a zero
    mantissa keeps the sign. *)
Definition of_decimal (neg : bool) (m : Z) (e : Z) : number :=
  match m with
  | Z0 => S754_zero neg
  | Zpos p =>
      if 0 <=? e
      then binary_normalize prec emax ((if neg then -1 else 1) * (m * 10 ^ e)) 0 false
      else SFdiv prec emax (S754_finite neg p 0)
                           (S754_finite false (Z.to_pos (10 ^ (- e))) 0)
  | Zneg _ => NaN
  end.

Definition is_nan (x : number) : bool :=
  match x with S754_nan => true | _ => false end.

Definition is_zero (x : number) : bool :=
  match x with S754_zero _ => true | _ => false end.


Definition is_negative (x : number) : bool :=
  match x with
  | S754_finite true _ _ | S754_infinity true => true
  | _ => false
  end.

(** [x < y] as JavaScript computes it: false as soon as one side is NaN. *)
Definition ltb (x y : number) : bool := SFltb x y.

(** The value is a whole number: the exponent is non-negative or the
    mantissa is a multiple of the power of two it is divided by. *)
Definition is_integer (x : number) : bool :=
  match x with
  | S754_zero _ => true
  | S754_finite _ m e => (0 <=? e) || (Zpos m mod 2 ^ (- e) =? 0)
  | _ => false
  end.

(** *** Numeric literals *)

Definition digit_value (c : ascii) : Z := Z.of_nat (nat_of_ascii c) - 48.

(** The value of a run of decimal digits, most significant first. *)
Fixpoint digits_value (acc : Z) (s : string) : Z :=
  match s with
  | EmptyString => acc
  | String c s' => digits_value (10 * acc + digit_value c) s'
  end.

(** [ExponentPart]: [e] or [E], an optional sign and at least one digit;
    the result is the exponent and what follows it. *)
Definition exponent_part (s : string) : option (Z * string) :=
  match s with
  | String c r =>
      if Ascii.eqb c "e" || Ascii.eqb c "E" then
        let '(neg, r') :=
          match r with
          | String "+" t => (false, t)
          | String "-" t => (true, t)
          | _ => (false, r)
          end in
        let '(ds, rest) := Str.span Str.is_digit r' in
        if Str.is_empty ds then None
        else Some ((if neg then - digits_value 0 ds else digits_value 0 ds), rest)
      else None
  | EmptyString => None
  end.

Definition with_exponent (neg : bool) (m : Z) (e : Z) (s : string)
  : number * string :=
  match exponent_part s with
  | Some (x, rest) => (of_decimal neg m (e + x), rest)
  | None => (of_decimal neg m e, s)
  end.

(** The longest prefix of [s] that is a [StrUnsignedDecimalLiteral], as
    its value and the rest of [s]. *)
Definition unsigned_decimal_literal (neg : bool) (s : string)
  : option (number * string) :=
  match Str.strip_prefix "Infinity" s with
  | Some rest => Some (infinity neg, rest)
  | None =>
      let '(ip, r) := Str.span Str.is_digit s in
      match r with
      | String "." r' =>
          let '(fp, r'') := Str.span Str.is_digit r' in
          if Str.is_empty ip && Str.is_empty fp then None
          else Some (with_exponent neg (digits_value 0 (ip ++ fp))
                       (- Z.of_nat (String.length fp)) r'')
      | _ =>
          if Str.is_empty ip then None
          else Some (with_exponent neg (digits_value 0 ip) 0 r)
      end
  end.

(** The longest prefix that is a [StrDecimalLiteral]. *)
Definition decimal_literal (s : string) : option (number * string) :=
  match s with
  | String "+" r => unsigned_decimal_literal false r
  | String "-" r => unsigned_decimal_literal true r
  | _ => unsigned_decimal_literal false s
  end.

(** [parseFloat(s)] *)
Definition parseFloat (s : string) : number :=
  match decimal_literal (Str.trim_start s) with
  | Some (x, _) => x
  | None => NaN
  end.

(** [parseInt(s, 10)] *)
Definition parseInt10 (s : string) : number :=
  let t := Str.trim_start s in
  let '(neg, t') :=
    match t with
    | String "+" r => (false, r)
    | String "-" r => (true, r)
    | _ => (false, t)
    end in
  let '(ds, _) := Str.span Str.is_digit t' in
  if Str.is_empty ds then NaN
  else
    let n := digits_value 0 ds in
    if n =? 0 then S754_zero neg else of_Z (if neg then - n else n).

(** Digits of the literals [0x..], [0o..] and [0b..]. *)
Definition radix_digit (radix : Z) (c : ascii) : option Z :=
  let v :=
    if Str.is_digit c then digit_value c
    else if Str.is_lower c then Z.of_nat (nat_of_ascii c) - 87
    else if Str.is_upper c then Z.of_nat (nat_of_ascii c) - 55
    else radix in
  if v <? radix then Some v else None.

Fixpoint radix_value (radix : Z) (acc : Z) (s : string) : option Z :=
  match s with
  | EmptyString => Some acc
  | String c s' =>
      match radix_digit radix c with
      | Some v => radix_value radix (radix * acc + v) s'
      | None => None
      end
  end.

Definition non_decimal_literal (s : string) : option number :=
  match s with
  | String "0" (String p ds) =>
      let radix :=
        if Ascii.eqb p "x" || Ascii.eqb p "X" then Some 16
        else if Ascii.eqb p "o" || Ascii.eqb p "O" then Some 8
        else if Ascii.eqb p "b" || Ascii.eqb p "B" then Some 2
        else None in
      match radix with
      | Some r =>
          if Str.is_empty ds then Some NaN
          else match radix_value r 0 ds with
               | Some v => Some (of_Z v)
               | None => Some NaN
               end
      | None => None
      end
  | _ => None
  end.

(** [StringToNumber]: the whole trimmed string must be one literal. *)
Definition of_string (s : string) : number :=
  let t := Str.trim s in
  if Str.is_empty t then zero
  else match non_decimal_literal t with
       | Some x => x
       | None =>
           match decimal_literal t with
           | Some (x, EmptyString) => x
           | _ => NaN
           end
       end.

End Num.

(** ** Values and objects *)

Module Js.

Import Num.

(** A JSON scalar; a missing property or array element ([undefined]) is
    the [None] of a lookup. *)
Inductive value : Type :=
| VNull
| VBool (b : bool)
| VNum (n : number)
| VStr (s : string).

(** [ToBoolean] *)
Definition truthy (v : value) : bool :=
  match v with
  | VNull => false
  | VBool b => b
  | VNum n => negb (is_zero n || is_nan n)
  | VStr s => negb (Str.is_empty s)
  end.

Definition truthy_opt (o : option value) : bool :=
  match o with Some v => truthy v | None => false end.

(** [ToNumber] *)
Definition to_number (v : value) : number :=
  match v with
  | VNull => zero
  | VBool b => if b then of_Z 1 else zero
  | VNum n => n
  | VStr s => of_string s
  end.

Definition to_number_opt (o : option value) : number :=
  match o with Some v => to_number v | None => NaN end.

(** The global [isNaN] *)
Definition isNaN (v : value) : bool := is_nan (to_number v).

(** [a || b] where [a] is a property read *)
Definition or_else (a : option value) (b : value) : value :=
  match a with
  | Some v => if truthy v then v else b
  | None => b
  end.

(** [a !== s] for a string literal [s] *)
Definition strict_ne_string (a : option value) (s : string) : bool :=
  match a with
  | Some (VStr t) => negb (String.eqb t s)
  | _ => true
  end.

(** [a > 0]: both sides go through [ToNumber], NaN compares false. *)
Definition gt_zero (a : option value) : bool := ltb zero (to_number_opt a).

(** Decimal rendering of an array index and of an integral time value
    inside a template literal. *)
Definition string_of_index (i : nat) : string :=
  NilEmpty.string_of_uint (Nat.to_uint i).

Definition string_of_time (t : Z) : string :=
  NilEmpty.string_of_int (Z.to_int t).

(** An object literal [{}] under assignment: its own properties, and
    whether it still inherits from [Object.prototype].  Assigning to
    [__proto__] goes to the inherited setter, which creates no property:
    it detaches the prototype when the value is [null] and ignores a
    primitive value; once detached, [__proto__] is an ordinary key. *)
Record object : Type := Object { own : gmap string value; inherits : bool }.

Definition empty_object : object := Object ∅ true.

Definition assign (key : string) (v : value) (o : object) : object :=
  if String.eqb key "__proto__" && inherits o then
    match v with
    | VNull => Object (own o) false
    | _ => o
    end
  else Object (<[key := v]> (own o)) (inherits o).

End Js.

(** ** Rows to deals: the [map] and [filter] callbacks of
       [fetchGoogleSheetData] *)

Module Deals.

Import Num Js.

(** A deal is the set of own properties of the object built for a row. *)
Abbreviation deal := (gmap string value).

Definition is_currency_mark (c : ascii) : bool :=
  Ascii.eqb c "$" || Ascii.eqb c ",".

(** The body of [headers.forEach] once the cell [v] is read: the value
    stored under [header]. *)
Definition coerce (header : string) (v : value) : value :=
  if String.eqb header "deal_value" then
    let numValue :=
      match v with
      | VStr s => VNum (parseFloat (Str.remove_all is_currency_mark s))
      | _ => v
      end in
    if isNaN numValue then VNum zero else numValue
  else if String.eqb header "process_days" then
    let numValue :=
      match v with
      | VStr s => VNum (parseInt10 s)
      | _ => v
      end in
    if isNaN numValue then VNull else numValue
  else v.

(** [row[colIndex] !== undefined ? row[colIndex] : null] *)
Definition cell (row : list value) (colIndex : nat) : value :=
  match row !! colIndex with Some v => v | None => VNull end.

(** [headers.forEach((header, colIndex) => ...)], from column [colIndex]
    on. *)
Fixpoint forEach_header (headers : list string) (colIndex : nat)
    (row : list value) (o : object) : object :=
  match headers with
  | [] => o
  | header :: rest =>
      forEach_header rest (S colIndex) row
        (assign header (coerce header (cell row colIndex)) o)
  end.

Definition fields (headers : list string) (row : list value) : deal :=
  own (forEach_header headers 0 row empty_object).

Definition synthesized_id (t : Z) (index : nat) : string :=
  "DEAL-" ++ string_of_time t ++ "-" ++ string_of_index index.

Definition fill_id (t : Z) (index : nat) (d : deal) : deal :=
  if truthy_opt (d !! "deal_id") then d
  else <["deal_id" := VStr (synthesized_id t index)]> d.

Definition fill_default (key : string) (dflt : value) (d : deal) : deal :=
  <[key := or_else (d !! key) dflt]> d.

Definition fill_defaults (d : deal) : deal :=
  fill_default "deal_value" (VNum zero)
    (fill_default "status" (VStr "Unknown")
       (fill_default "broker_name" (VStr "Unknown")
          (fill_default "deal_name" (VStr "Unnamed Deal") d))).

(** The [filter] callback, its result taken as a boolean. *)
Definition keep (d : deal) : bool :=
  truthy_opt (d !! "deal_id")
  && (strict_ne_string (d !! "deal_name") "Unnamed Deal"
      || gt_zero (d !! "deal_value")).

Section Rows.

(** [now index] is what [Date.now()] returns while the row at [index]
    is mapped. *)
Variable now : nat -> Z.
Variable headers : list string.

(** The [map] callback. *)
Definition normalize_row (index : nat) (row : list value) : deal :=
  fill_defaults (fill_id (now index) index (fields headers row)).

Definition normalize (rows : list (list value)) : list deal :=
  imap normalize_row rows.

Definition deals_of_rows (rows : list (list value)) : list deal :=
  List.filter keep (normalize rows).

End Rows.

End Deals.

(** ** The locator: [extractSpreadsheetId] *)

Module Locator.

(** The class [[a-zA-Z0-9-_]]: the last two characters stand for
    themselves. *)
Definition is_id_char (c : ascii) : bool :=
  Str.is_lower c || Str.is_upper c || Str.is_digit c
  || Ascii.eqb c "-" || Ascii.eqb c "_".

(** A pattern [/lit([a-zA-Z0-9-_]+)/] is given by its literal part.
    [match_at lit s] is the capture when the pattern matches at the very
    start of [s]: the group is greedy and nothing follows it, so it takes
    the whole run of class characters, which must not be empty. *)
Definition match_at (lit s : string) : option string :=
  match Str.strip_prefix lit s with
  | Some rest =>
      let '(capture, _) := Str.span is_id_char rest in
      if Str.is_empty capture then None else Some capture
  | None => None
  end.

(** [input.match(pattern)] without the [g] flag: the start positions are
    tried from left to right; the result is [match[1]]. *)
Fixpoint search (lit s : string) : option string :=
  match match_at lit s with
  | Some capture => Some capture
  | None =>
      match s with
      | EmptyString => None
      | String _ s' => search lit s'
      end
  end.

Definition patterns : list string := ["/spreadsheets/d/"; "/d/"; "id="].

(** The [for] loop over the patterns: [if (match && match[1]) return]. *)
Fixpoint first_match (ps : list string) (input : string) : option string :=
  match ps with
  | [] => None
  | p :: ps' =>
      match search p input with
      | Some capture =>
          if negb (Str.is_empty capture) then Some capture
          else first_match ps' input
      | None => first_match ps' input
      end
  end.

Definition has_separator (input : string) : bool :=
  Str.includes "/" input || Str.includes "?" input.

Definition extractSpreadsheetId (input : string) : option string :=
  if negb (Str.includes "/" input) && negb (Str.includes "?" input)
  then Some (Str.trim input)
  else first_match patterns input.

End Locator.

(** ** The network and the two asynchronous functions *)

Module Net.

Import Num Js Deals Locator.

(** What [await response.json()] and then [data.values] give: the body is
    not JSON and [json()] throws an error with a message, or the [values]
    member is absent, an empty array, or a header row of strings followed
    by the data rows. *)
Inductive values_field : Type :=
| Unreadable (message : string)
| Missing
| NoRows
| Rows (headers : list string) (rows : list (list value)).

Record response : Type :=
  Response { status : Z; statusText : string; values : values_field }.

(** [response.ok]: the status is in the range 200-299. *)
Definition ok (r : response) : bool :=
  (200 <=? status r) && (status r <=? 299).

(** What [await fetch(url)] does: throw an [Error] with a message or yield
    a response. *)
Inductive fetched : Type :=
| Fails (message : string)
| Responds (r : response).

(** How a promise settles; a rejection carries the message of its
    [Error]. *)
Inductive settled (A : Type) : Type :=
| Fulfilled (a : A)
| Rejected (message : string).
Arguments Fulfilled {A} a.
Arguments Rejected {A} message.

(** The result of [validateGoogleSheetConnection]. *)
Record validation : Type :=
  Validation { valid : bool; error : option string }.

Definition invalid (message : string) : validation :=
  Validation false (Some message).

(** [!apiKey || apiKey.trim() === ''] *)
Definition blank (apiKey : string) : bool :=
  Str.is_empty apiKey || Str.is_empty (Str.trim apiKey).

(** [!sheetId] for the result of the locator *)
Definition usable (sheetId : option string) : option string :=
  match sheetId with
  | Some id => if Str.is_empty id then None else Some id
  | None => None
  end.

Definition default_range : string := "Sheet1".

Section Transport.

Variable encodeURIComponent : string -> string.
(** The answer of the network to a request for a URL. *)
Variable fetch : string -> fetched.
Variable now : nat -> Z.

Definition values_url (sheetId range apiKey : string) : string :=
  "https://sheets.googleapis.com/v4/spreadsheets/" ++ sheetId
  ++ "/values/" ++ encodeURIComponent range ++ "?key=" ++ apiKey.

Definition metadata_url (sheetId apiKey : string) : string :=
  "https://sheets.googleapis.com/v4/spreadsheets/" ++ sheetId
  ++ "?key=" ++ apiKey ++ "&fields=sheets.properties.title".

(** From [const data = await response.json()] to [return deals]. *)
Definition deals_of_body (data : values_field) : settled (list deal) :=
  match data with
  | Unreadable message => Rejected message
  | Missing | NoRows => Rejected "No data found in the specified range"
  | Rows headers rows =>
      match rows with
      | [] => Rejected "Sheet contains headers but no data rows"
      | _ => Fulfilled (deals_of_rows now headers rows)
      end
  end.

(** Both functions are paired with the list of the URLs they
    requested. *)
Definition fetchGoogleSheetData (spreadsheetId apiKey range : string)
  : list string * settled (list deal) :=
  match usable (extractSpreadsheetId spreadsheetId) with
  | None => ([], Rejected "Invalid spreadsheet ID or URL")
  | Some sheetId =>
      if blank apiKey then ([], Rejected "API key is required")
      else
        let url := values_url sheetId range apiKey in
        ([url],
         match fetch url with
         | Fails message => Rejected message
         | Responds r =>
             if negb (ok r) then
               if status r =? 403 then
                 Rejected "Access denied. Make sure the sheet is publicly accessible and the API key is valid."
               else if status r =? 404 then
                 Rejected "Sheet not found. Check the spreadsheet ID and range."
               else Rejected ("Failed to fetch data: " ++ statusText r)
             else deals_of_body (values r)
         end)
  end.

Definition validateGoogleSheetConnection (spreadsheetId apiKey : string)
  : list string * validation :=
  match usable (extractSpreadsheetId spreadsheetId) with
  | None => ([], invalid "Invalid spreadsheet ID or URL")
  | Some sheetId =>
      if blank apiKey then ([], invalid "API key is required")
      else
        let url := metadata_url sheetId apiKey in
        ([url],
         match fetch url with
         | Fails message => invalid message
         | Responds r =>
             if negb (ok r) then
               if status r =? 403 then
                 invalid "Access denied. Check your API key and sheet permissions."
               else if status r =? 404 then
                 invalid "Spreadsheet not found."
               else invalid ("Connection failed: " ++ statusText r)
             else Validation true None
         end)
  end.

End Transport.

End Net.

(** ** The names of the sheets: [getSheetNames] *)

Module Names.

Import Locator Net.

(** An element of the [sheets] array of a metadata answer: it carries
    [properties.title], or it has no [properties] member, in which case
    reading the title throws. *)
Inductive sheet : Type :=
| Titled (title : string)
| NoProperties.

(** The answer to a metadata request as [getSheetNames] reads it; the
    [sheets] member can be absent. *)
Record metadata : Type :=
  Metadata { m_status : Z; m_statusText : string; sheets : option (list sheet) }.

Definition m_ok (r : metadata) : bool :=
  (200 <=? m_status r) && (m_status r <=? 299).

Inductive answered : Type :=
| Unreachable (message : string)
| Answers (r : metadata).

(** [data.sheets.map(sheet => sheet.properties.title)]: the titles in
    order, or [None] when an element makes the callback throw. *)
Fixpoint titles (l : list sheet) : option (list string) :=
  match l with
  | [] => Some []
  | Titled t :: l' =>
      match titles l' with
      | Some ts => Some (t :: ts)
      | None => None
      end
  | NoProperties :: _ => None
  end.

(** What a call leaves behind: the URLs requested, whether the [catch]
    block ran (it logs with [console.error]), and the names returned. *)
Record outcome : Type :=
  Outcome { requested : list string; caught : bool; names : list string }.

Definition fallback : list string := ["Sheet1"].

Section Metadata.

Variable fetch : string -> answered.

Definition getSheetNames (spreadsheetId apiKey : string) : outcome :=
  match usable (extractSpreadsheetId spreadsheetId) with
  | None => Outcome [] true fallback
  | Some sheetId =>
      let url := metadata_url sheetId apiKey in
      match fetch url with
      | Unreachable _ => Outcome [url] true fallback
      | Answers r =>
          if negb (m_ok r) then Outcome [url] true fallback
          else
            match sheets r with
            | None | Some [] => Outcome [url] false fallback
            | Some l =>
                match titles l with
                | Some ts => Outcome [url] false ts
                | None => Outcome [url] true fallback
                end
            end
      end
  end.

End Metadata.

End Names.

(** ** The form: [handleLoad] of [GoogleSheetsLoader] *)

Module Loader.

Import Js Deals Locator Net.

(** What [handleLoad] does to its surroundings, in order: the state
    setters and the callbacks of the component, which are taken not to
    throw, and the requests sent while it awaits. *)
Inductive effect : Type :=
| SetLocalError (message : option string)
| OnError (message : string)
| SetIsLoading (loading : bool)
| OnDataLoad (deals : list deal)
| Request (url : string).

(** [setLocalError(m); onError(m)] *)
Definition report (message : string) : list effect :=
  [SetLocalError (Some message); OnError message].

(** [validation.error || "Failed to connect to Google Sheets"] *)
Definition connection_error (error : option string) : string :=
  match error with
  | Some m => if Str.is_empty m then "Failed to connect to Google Sheets" else m
  | None => "Failed to connect to Google Sheets"
  end.

Section Form.

Variable encodeURIComponent : string -> string.
Variable fetch : string -> fetched.
Variable now : nat -> Z.

(** The [try] block with its [catch]: every [throw] ends in a report. *)
Definition attempt (apiKey sheetId sheetRange : string) : list effect :=
  let '(asked, validation) :=
    validateGoogleSheetConnection fetch sheetId apiKey in
  map Request asked
  ++ (if negb (valid validation)
      then report (connection_error (error validation))
      else
        let '(asked', result) :=
          fetchGoogleSheetData encodeURIComponent fetch now
            sheetId apiKey sheetRange in
        map Request asked'
        ++ match result with
           | Rejected message => report message
           | Fulfilled dealsData =>
               if (length dealsData =? 0)%nat
               then report "No valid deals found in the sheet"
               else [OnDataLoad dealsData; SetLocalError None]
           end).

(** The arguments are the state of the form: [apiKey], [sheetId] and
    [sheetRange]. *)
Definition handleLoad (apiKey sheetId sheetRange : string) : list effect :=
  if Str.is_empty (Str.trim apiKey)
  then report "Please enter a Google API Key"
  else if Str.is_empty (Str.trim sheetId)
  then report "Please enter a Google Sheets ID or URL"
  else
    [SetIsLoading true; SetLocalError None; OnError ""]
    ++ attempt apiKey sheetId sheetRange
    ++ [SetIsLoading false].

End Form.

End Loader.

Import Num Js Deals Locator Net.

(** * Vocabulary of the properties *)

(** ** What the specification asks of a record *)

(** A property that is there and is neither [null] nor the empty string. *)
Definition non_empty (o : option value) : Prop :=
  o <> None /\ o <> Some VNull /\ o <> Some (VStr "").

(** A number above zero, by its sign and class. *)
Definition is_positive (n : number) : bool :=
  match n with
  | S754_finite false _ _ | S754_infinity false => true
  | _ => false
  end.

(** A [deal_value] strictly greater than zero: a number above zero; the
    boolean [true], which a boolean cell leaves in place, counts as 1. *)
Definition above_zero (o : option value) : Prop :=
  match o with
  | Some (VNum n) => is_positive n = true
  | Some (VBool b) => b = true
  | _ => False
  end.

(** The rule of the specification for keeping a candidate: a [deal_id]
    that is not empty, and a name other than the default or a value above
    zero. *)
Definition spec_keeps (d : deal) : Prop :=
  non_empty (d !! "deal_id")
  /\ (d !! "deal_name" <> Some (VStr "Unnamed Deal")
      \/ above_zero (d !! "deal_value")).

#[global] Instance number_eq_dec : EqDecision number.
Proof. unfold number. solve_decision. Defined.

#[global] Instance value_eq_dec : EqDecision value.
Proof. solve_decision. Defined.

#[global] Instance above_zero_dec (o : option value) : Decision (above_zero o).
Proof. destruct o as [[| | |]|]; cbn; apply _. Defined.

#[global] Instance spec_keeps_dec (d : deal) : Decision (spec_keeps d).
Proof. unfold spec_keeps, non_empty. apply _. Defined.


(** What the specification asks of a [process_days] that is present. *)
Definition non_negative_integer (v : value) : bool :=
  match v with
  | VNum n => is_integer n && negb (is_negative n)
  | _ => false
  end.


(** What the code ensures of the number read by [parseInt]. *)
Definition integer_or_infinite (x : number) : Prop :=
  is_integer x = true \/ exists neg, x = infinity neg.

(** The message with which a response that is not a success is
    rejected, by its status. *)
Definition fetch_refusal (r : response) : string :=
  if status r =? 403 then
    "Access denied. Make sure the sheet is publicly accessible and the API key is valid."
  else if status r =? 404 then
    "Sheet not found. Check the spreadsheet ID and range."
  else "Failed to fetch data: " ++ statusText r.

(** ** The shapes of an input of the locator *)

(** An identifier as the patterns read it: a non-empty run of letters,
    digits, dashes and underscores. *)
Definition id_text (s : string) : Prop :=
  s <> "" /\ Str.all is_id_char s = true.

(** [input] holds the literal [lit] right after [pre], followed by the
    identifier [id] and then by something that does not continue it. *)
Definition embeds_at (lit input pre id : string) : Prop :=
  exists post,
    input = pre ++ lit ++ id ++ post
    /\ id_text id
    /\ Str.head_satisfies is_id_char post = false.

(** [input] has the shape of the pattern with literal [lit]. *)
Definition has_shape (lit input : string) : Prop :=
  exists pre id, embeds_at lit input pre id.

(** [id] is the identifier of the leftmost place where [input] has the
    shape: whatever surrounds it, no such place starts earlier. *)
Definition embeds_first (lit input id : string) : Prop :=
  exists pre,
    embeds_at lit input pre id
    /\ forall pre' id',
         (String.length pre' < String.length pre)%nat ->
         ~ embeds_at lit input pre' id'.

(** [t] is [s] without the white space at its two ends: only white space
    was taken away, and none is left at either end. *)
Definition trimmed_of (s t : string) : Prop :=
  (exists l r,
      s = l ++ t ++ r
      /\ Str.all Str.is_white_space l = true
      /\ Str.all Str.is_white_space r = true)
  /\ Str.head_satisfies Str.is_white_space t = false
  /\ Str.last_satisfies Str.is_white_space t = false.

(** ** Sample data *)

(** The table of the end-to-end example and the deal it yields. *)
Definition example_headers : list string :=
  ["deal_id"; "deal_name"; "broker_name"; "deal_value"; "status"].

Definition example_rows : list (list value) :=
  [ [VStr "D1"; VStr "Acme"; VStr "Jo"; VStr "$2,000"; VStr "Open"];
    [VStr ""; VStr ""; VStr ""; VStr ""; VStr ""] ].

Definition example_deal : deal :=
  <["deal_id" := VStr "D1"]>
    (<["deal_name" := VStr "Acme"]>
       (<["broker_name" := VStr "Jo"]>
          (<["deal_value" := VNum (of_Z 2000)]>
             (<["status" := VStr "Open"]> ∅)))).

(** The headers of the samples of the filter, and the record the [map]
    callback makes of a row that has an id, a name and an amount only. *)
Definition filter_headers : list string :=
  ["deal_id"; "deal_name"; "deal_value"].

Definition filled (id name : string) (amount : number) : deal :=
  <["deal_id" := VStr id]>
    (<["deal_name" := VStr name]>
       (<["broker_name" := VStr "Unknown"]>
          (<["status" := VStr "Unknown"]>
             (<["deal_value" := VNum amount]> ∅)))).

(** A record with the three properties the filter reads. *)
Definition candidate (id name : string) (amount : number) : deal :=
  <["deal_id" := VStr id]>
    (<["deal_name" := VStr name]> (<["deal_value" := VNum amount]> ∅)).


(** Rows under the headers [deal_id], [deal_name]. *)
Definition twin_rows : list (list value) :=
  [ [VStr "D1"; VStr "First"]; [VStr "D1"; VStr "Second"] ].


(** A network that answers every request with the same response. *)
Definition always (st : Z) (text : string) (data : values_field)
  : string -> fetched :=
  fun _ => Responds (Response st text data).

Definition sheet_url : string :=
  "https://docs.google.com/spreadsheets/d/1AbC-d_9/edit#gid=0".

Definition file_url : string := "https://drive.google.com/file/d/Q1/view".

Definition open_url : string := "https://drive.google.com/open?id=XYZ&a=1".

Definition gid_url : string := "https://drive.google.com/open?gid=7&id=XYZ".

(** ** Further vocabulary: rows, fields and effects *)

(** A cell with nothing in it. *)
Definition blank_cell (v : value) : Prop := v = VNull \/ v = VStr "".

(** The fields the [map] callback always fills. *)
Definition required_fields : list string :=
  ["deal_id"; "deal_name"; "broker_name"; "status"; "deal_value"].

(** The headers whose cells are stored as they come and not refilled. *)
Definition plain_header (h : string) : Prop :=
  h <> "__proto__" /\ h <> "deal_value" /\ h <> "process_days"
  /\ h ∉ required_fields.

(** The requests among the effects of the form, in order. *)
Definition requests_of (l : list Loader.effect) : list string :=
  omap (fun e => match e with Loader.Request url => Some url | _ => None end) l.

Definition sets_loading (e : Loader.effect) : bool :=
  match e with Loader.SetIsLoading _ => true | _ => false end.

(** A network that knows one spreadsheet: it answers the metadata
    request with status 200 and the values request with the given table,
    and anything else with 404. *)
Definition one_sheet (id apiKey range : string) (data : values_field)
  : string -> fetched :=
  fun url =>
    if String.eqb url (metadata_url id apiKey)
    then Responds (Response 200 "OK" Missing)
    else if String.eqb url (values_url (fun s => s) id range apiKey)
    then Responds (Response 200 "OK" data)
    else Responds (Response 404 "Not Found" Missing).

(** * Properties *)

(** ** Readings of the primitives *)

Example parseFloat_readings :
  parseFloat "1200.50" = binary_normalize prec emax 2401 (-1) false
  /\ parseFloat "  -0.5e1 each" = of_Z (-5)
  /\ parseFloat "12px" = of_Z 12
  /\ parseFloat ".5" = binary_normalize prec emax 1 (-1) false
  /\ parseFloat "abc" = NaN
  /\ parseFloat "" = NaN
  /\ parseFloat "-Infinity" = infinity true.
Proof. vm_compute. repeat split; reflexivity. Qed.

Example parseInt10_readings :
  parseInt10 "42" = of_Z 42
  /\ parseInt10 " 12.7 days" = of_Z 12
  /\ parseInt10 "-3" = of_Z (-3)
  /\ parseInt10 "N/A" = NaN
  /\ parseInt10 "" = NaN.
Proof. vm_compute. repeat split; reflexivity. Qed.

Example of_string_readings :
  of_string "" = zero
  /\ of_string " 0x1F " = of_Z 31
  /\ of_string "1e3" = of_Z 1000
  /\ of_string "12px" = NaN.
Proof. vm_compute. repeat split; reflexivity. Qed.

Example synthesized_id_reading :
  synthesized_id 1700000000000 7 = "DEAL-1700000000000-7"
  /\ synthesized_id 0 0 = "DEAL-0-0".
Proof. vm_compute. split; reflexivity. Qed.

(** A row with no id and no name, and an amount written as currency. *)
Example normalize_blank_id_and_name (now : nat -> Z) :
  normalize now ["deal_id"; "deal_name"; "deal_value"]
    [[VStr ""; VStr ""; VStr "$1,200.50"]]
  = [ <["deal_id" := VStr (synthesized_id (now 0%nat) 0)]>
        (<["deal_name" := VStr "Unnamed Deal"]>
           (<["broker_name" := VStr "Unknown"]>
              (<["status" := VStr "Unknown"]>
                 (<["deal_value" :=
                      VNum (binary_normalize prec emax 2401 (-1) false)]> ∅)))) ].
Proof. vm_compute. reflexivity. Qed.

(** ** The end-to-end example *)

(** C1: on the table of the end-to-end example, mapping the rows and then
    filtering returns exactly one deal, the one of the first row with
    [deal_value] 2000; the blank second row leaves no record, whatever the
    clock says. *)
Theorem end_to_end_example (now : nat -> Z) :
  deals_of_rows now example_headers example_rows = [example_deal]
  /\ length (normalize now example_headers example_rows) = 2%nat
  /\ parseFloat (Str.remove_all is_currency_mark "$2,000") = of_Z 2000.
Proof. vm_compute. repeat split; reflexivity. Qed.

(** ** Responses of the network *)

Section Responses.

Variable encodeURIComponent : string -> string.
Variable fetch : string -> fetched.
Variable now : nat -> Z.

Lemma fetch_on_response spreadsheetId apiKey range sheetId r :
  usable (extractSpreadsheetId spreadsheetId) = Some sheetId ->
  blank apiKey = false ->
  fetch (values_url encodeURIComponent sheetId range apiKey) = Responds r ->
  ok r = true ->
  fetchGoogleSheetData encodeURIComponent fetch now spreadsheetId apiKey range
  = ([values_url encodeURIComponent sheetId range apiKey],
     deals_of_body now (values r)).
Proof.
  intros Hid Hkey Hfetch Hok. unfold fetchGoogleSheetData.
  rewrite Hid, Hkey. cbn zeta. rewrite Hfetch, Hok. reflexivity.
Qed.

Lemma deals_of_body_empty data :
  (forall message, data <> Unreadable message) ->
  deals_of_body now data = Rejected "No data found in the specified range"
  <-> data = Missing \/ data = NoRows.
Proof.
  intros Hread. destruct data as [message| | |headers [|row rows]]; cbn; split;
    solve [ auto | intros [?|?]; discriminate | discriminate
          | by destruct (Hread message) ].
Qed.

Lemma deals_of_body_headers_only data :
  (forall message, data <> Unreadable message) ->
  deals_of_body now data = Rejected "Sheet contains headers but no data rows"
  <-> exists headers, data = Rows headers [].
Proof.
  intros Hread. destruct data as [message| | |headers [|row rows]]; cbn; split;
    solve [ eauto | intros [? ?]; discriminate | discriminate
          | by destruct (Hread message) ].
Qed.

Lemma refusal_message r :
  ok r = false ->
  fetch_refusal r <> "No data found in the specified range"
  /\ fetch_refusal r <> "Sheet contains headers but no data rows".
Proof.
  intros _. unfold fetch_refusal.
  destruct (status r =? 403); [by split|].
  destruct (status r =? 404); [by split|].
  split; intros H; lazy in H; discriminate H.
Qed.

(** C9, as the code has it: for a response that is a success and whose
    body is JSON, [fetchGoogleSheetData] rejects with the empty-result
    message exactly when [values] is missing or an empty array, and with
    the headers-only message exactly when [values] holds one row; a
    response that is not a success is rejected with the message of its
    status, with or without rows, and a body that is not JSON with the
    message of the error of [json()]. *)
Theorem empty_and_headers_only spreadsheetId apiKey range sheetId r :
  usable (extractSpreadsheetId spreadsheetId) = Some sheetId ->
  blank apiKey = false ->
  fetch (values_url encodeURIComponent sheetId range apiKey) = Responds r ->
  let result :=
    snd (fetchGoogleSheetData encodeURIComponent fetch now
           spreadsheetId apiKey range) in
  (ok r = true -> (forall message, values r <> Unreadable message) ->
   (result = Rejected "No data found in the specified range"
    <-> values r = Missing \/ values r = NoRows)
   /\ (result = Rejected "Sheet contains headers but no data rows"
       <-> exists headers, values r = Rows headers []))
  /\ (ok r = false ->
      result = Rejected (fetch_refusal r)
      /\ result <> Rejected "No data found in the specified range"
      /\ result <> Rejected "Sheet contains headers but no data rows")
  /\ (ok r = true -> forall message,
        values r = Unreadable message -> result = Rejected message).
Proof.
  intros Hid Hkey Hfetch result. subst result. split; [|split].
  - intros Hok Hread.
    rewrite (fetch_on_response _ _ _ _ _ Hid Hkey Hfetch Hok). cbn [snd].
    split; [by apply deals_of_body_empty | by apply deals_of_body_headers_only].
  - intros Hok. destruct (refusal_message r Hok) as [Hempty Hheaders].
    assert (Hresult : snd (fetchGoogleSheetData encodeURIComponent fetch now
                             spreadsheetId apiKey range)
                      = Rejected (fetch_refusal r)).
    { unfold fetchGoogleSheetData, fetch_refusal. rewrite Hid, Hkey. cbn zeta.
      rewrite Hfetch, Hok. cbn [snd negb].
      destruct (status r =? 403); [done|]. by destruct (status r =? 404). }
    rewrite Hresult. repeat split; congruence.
  - intros Hok message Hbody.
    rewrite (fetch_on_response _ _ _ _ _ Hid Hkey Hfetch Hok). cbn [snd].
    by rewrite Hbody.
Qed.

(** C7, as the code has it: an unresolved identifier and a blank
    credential are refused before any request, in that order; a refused
    response is mapped to the messages of the source, which for 403 and
    404 are not the ones of the specification; a successful response
    validates. *)
Theorem validation_reasons spreadsheetId apiKey :
  (usable (extractSpreadsheetId spreadsheetId) = None ->
   validateGoogleSheetConnection fetch spreadsheetId apiKey
   = ([], invalid "Invalid spreadsheet ID or URL"))
  /\ (forall sheetId,
        usable (extractSpreadsheetId spreadsheetId) = Some sheetId ->
        blank apiKey = true ->
        validateGoogleSheetConnection fetch spreadsheetId apiKey
        = ([], invalid "API key is required"))
  /\ (forall sheetId r,
        usable (extractSpreadsheetId spreadsheetId) = Some sheetId ->
        blank apiKey = false ->
        fetch (metadata_url sheetId apiKey) = Responds r ->
        snd (validateGoogleSheetConnection fetch spreadsheetId apiKey)
        = if ok r then Validation true None
          else if status r =? 403 then
            invalid "Access denied. Check your API key and sheet permissions."
          else if status r =? 404 then invalid "Spreadsheet not found."
          else invalid ("Connection failed: " ++ statusText r)).
Proof.
  unfold validateGoogleSheetConnection. repeat split.
  - intros ->. reflexivity.
  - intros sheetId -> ->. reflexivity.
  - intros sheetId r -> -> . cbn zeta. intros ->. cbn [snd].
    destruct (ok r); reflexivity.
Qed.

(** C10: the locator returns the empty string for the empty string, and
    both asynchronous functions refuse it as an invalid identifier
    without asking the network for anything. *)
Theorem empty_input_rejected apiKey range :
  extractSpreadsheetId "" = Some ""
  /\ fetchGoogleSheetData encodeURIComponent fetch now "" apiKey range
     = ([], Rejected "Invalid spreadsheet ID or URL")
  /\ validateGoogleSheetConnection fetch "" apiKey
     = ([], invalid "Invalid spreadsheet ID or URL").
Proof. repeat split. Qed.

End Responses.

(** C9 as stated fails: a 403 response holds no rows and yet the rejection
    is not the empty-result one; the status decides before the body is
    read. *)
Lemma no_rows_behind_refusal :
  values (Response 403 "Forbidden" Missing) = Missing
  /\ snd (fetchGoogleSheetData (fun s => s) (always 403 "Forbidden" Missing)
            (fun _ => 0) "abc123" "key" default_range)
     = Rejected "Access denied. Make sure the sheet is publicly accessible and the API key is valid."
  /\ snd (fetchGoogleSheetData (fun s => s) (always 403 "Forbidden" Missing)
            (fun _ => 0) "abc123" "key" default_range)
     <> Rejected "No data found in the specified range".
Proof. vm_compute. repeat split. discriminate. Qed.

Lemma empty_and_headers_only_witness :
  (snd (fetchGoogleSheetData (fun s => s) (always 200 "OK" (Rows ["deal_id"] []))
          (fun _ => 0) "abc123" "key" default_range)
   = Rejected "No data found in the specified range"
   <-> Rows ["deal_id"] [] = Missing \/ Rows ["deal_id"] [] = NoRows)
  /\ (snd (fetchGoogleSheetData (fun s => s)
             (always 200 "OK" (Rows ["deal_id"] []))
             (fun _ => 0) "abc123" "key" default_range)
      = Rejected "Sheet contains headers but no data rows"
      <-> exists headers, Rows ["deal_id"] [] = Rows headers []).
Proof.
  refine (proj1 (empty_and_headers_only (fun s => s)
                   (always 200 "OK" (Rows ["deal_id"] []))
                   (fun _ => 0) "abc123" "key" default_range "abc123"
                   (Response 200 "OK" (Rows ["deal_id"] []))
                   eq_refl eq_refl eq_refl) eq_refl _).
  discriminate.
Defined.

(** C7 as stated fails: the reason given for a 403 response is not the
    text the specification quotes, and neither is the one for 404. *)
Lemma validation_reason_texts_differ :
  snd (validateGoogleSheetConnection (always 403 "Forbidden" Missing) "abc123" "key")
  <> invalid "Access denied — check sharing settings and credential validity"
  /\ snd (validateGoogleSheetConnection (always 404 "Not Found" Missing) "abc123" "key")
     <> invalid "Spreadsheet not found".
Proof. split; vm_compute; discriminate. Qed.

Lemma validation_reasons_witness :
  snd (validateGoogleSheetConnection (always 403 "Forbidden" Missing) "abc123" "key")
  = invalid "Access denied. Check your API key and sheet permissions.".
Proof.
  exact (proj2 (proj2 (validation_reasons (always 403 "Forbidden" Missing)
                         "abc123" "key"))
           "abc123" (Response 403 "Forbidden" Missing) eq_refl eq_refl eq_refl).
Defined.

(** ** The fields of a row *)

Section Fields.

Lemma assign_lookup_same k v o :
  k <> "__proto__" -> own (assign k v o) !! k = Some v.
Proof.
  intros Hk. unfold assign.
  destruct (String.eqb_spec k "__proto__") as [->|_]; [done|].
  cbn. apply lookup_insert_eq.
Qed.

Lemma assign_lookup_other h k v o :
  h <> k -> own (assign h v o) !! k = own o !! k.
Proof.
  intros Hne. unfold assign.
  destruct (String.eqb h "__proto__" && inherits o).
  - by destruct v.
  - cbn. by apply lookup_insert_ne.
Qed.

(** A name that is not a header is not assigned. *)
Lemma forEach_lookup_absent headers : forall colIndex row o k,
  k ∉ headers ->
  own (forEach_header headers colIndex row o) !! k = own o !! k.
Proof.
  induction headers as [|h rest IH]; intros colIndex row o k Hk; [done|].
  apply not_elem_of_cons in Hk as [Hne Hrest]. cbn.
  rewrite IH by done. by apply assign_lookup_other.
Qed.

(** The last column under a header decides the field. *)
Lemma forEach_lookup_last headers : forall colIndex row o k c,
  k <> "__proto__" ->
  headers !! c = Some k ->
  (forall c', (c < c')%nat -> headers !! c' <> Some k) ->
  own (forEach_header headers colIndex row o) !! k
  = Some (coerce k (cell row (colIndex + c))).
Proof.
  induction headers as [|h rest IH]; intros colIndex row o k c Hk Hc Hlast;
    [done|].
  destruct c as [|c]; cbn in *.
  - injection Hc as ->. rewrite forEach_lookup_absent.
    + rewrite Nat.add_0_r. by apply assign_lookup_same.
    + intros [c' Hc']%list_elem_of_lookup.
      apply (Hlast (S c')); [lia | done].
  - replace (colIndex + S c)%nat with (S colIndex + c)%nat by lia.
    apply IH; [done | done |].
    intros c' Hlt. apply (Hlast (S c')). lia.
Qed.

(** Whatever is stored under a name went through [coerce]. *)
Lemma forEach_lookup_coerced headers : forall colIndex row o k v,
  k <> "__proto__" ->
  own (forEach_header headers colIndex row o) !! k = Some v ->
  own o !! k = Some v \/ exists x, v = coerce k x.
Proof.
  induction headers as [|h rest IH]; intros colIndex row o k v Hk Hv;
    [by left|].
  cbn in Hv. apply IH in Hv as [Hv|Hv]; [|by right|done].
  destruct (decide (h = k)) as [->|Hne].
  - rewrite assign_lookup_same in Hv by done.
    injection Hv as <-. right. eauto.
  - rewrite assign_lookup_other in Hv by done. by left.
Qed.

Lemma fields_lookup_coerced headers row k v :
  k <> "__proto__" -> fields headers row !! k = Some v ->
  exists x, v = coerce k x.
Proof.
  intros Hk Hv. apply forEach_lookup_coerced in Hv as [Hv|Hv]; done.
Qed.

Lemma fields_lookup_last headers row k c :
  k <> "__proto__" ->
  headers !! c = Some k ->
  (forall c', (c < c')%nat -> headers !! c' <> Some k) ->
  fields headers row !! k = Some (coerce k (cell row c)).
Proof.
  intros Hk Hc Hlast. unfold fields.
  by rewrite (forEach_lookup_last headers 0 row empty_object k c).
Qed.

Variable now : nat -> Z.
Variable headers : list string.

Lemma normalize_row_deal_id index row :
  normalize_row now headers index row !! "deal_id"
  = if truthy_opt (fields headers row !! "deal_id")
    then fields headers row !! "deal_id"
    else Some (VStr (synthesized_id (now index) index)).
Proof.
  unfold normalize_row, fill_defaults, fill_default, fill_id.
  rewrite !lookup_insert_ne by done.
  destruct (truthy_opt _); [done|]. apply lookup_insert_eq.
Qed.

Lemma normalize_row_deal_name index row :
  normalize_row now headers index row !! "deal_name"
  = Some (or_else (fields headers row !! "deal_name") (VStr "Unnamed Deal")).
Proof.
  unfold normalize_row, fill_defaults, fill_default, fill_id.
  rewrite !lookup_insert_ne by done. rewrite lookup_insert_eq.
  destruct (truthy_opt _); [done|]. by rewrite lookup_insert_ne.
Qed.

Lemma normalize_row_deal_value index row :
  normalize_row now headers index row !! "deal_value"
  = Some (or_else (fields headers row !! "deal_value") (VNum zero)).
Proof.
  unfold normalize_row, fill_defaults, fill_default, fill_id.
  rewrite lookup_insert_eq. rewrite !lookup_insert_ne by done.
  destruct (truthy_opt _); [done|]. by rewrite lookup_insert_ne.
Qed.

Lemma normalize_row_process_days index row :
  normalize_row now headers index row !! "process_days"
  = fields headers row !! "process_days".
Proof.
  unfold normalize_row, fill_defaults, fill_default, fill_id.
  rewrite !lookup_insert_ne by done.
  destruct (truthy_opt _); [done|]. by rewrite lookup_insert_ne.
Qed.

Lemma elem_of_normalize rows d :
  d ∈ normalize now headers rows <->
  exists index row,
    rows !! index = Some row /\ d = normalize_row now headers index row.
Proof.
  unfold normalize. rewrite elem_of_lookup_imap. split; intros (i & row & H1 & H2); eauto.
Qed.

Lemma elem_of_deals_of_rows rows d :
  d ∈ deals_of_rows now headers rows <->
  d ∈ normalize now headers rows /\ keep d = true.
Proof.
  unfold deals_of_rows. rewrite !list_elem_of_In. apply filter_In.
Qed.

Lemma normalize_row_id_truthy index row :
  truthy_opt (normalize_row now headers index row !! "deal_id") = true.
Proof.
  rewrite normalize_row_deal_id.
  by destruct (truthy_opt (fields headers row !! "deal_id")) eqn:Hid.
Qed.

End Fields.

(** ** The filter *)

Lemma strict_ne_string_spec a s :
  strict_ne_string a s = true <-> a <> Some (VStr s).
Proof.
  destruct a as [[| | |t]|]; cbn; try (split; [discriminate | done]).
  destruct (String.eqb_spec t s) as [->|Hne]; cbn.
  - split; [discriminate | intros H; by destruct H].
  - split; [congruence | done].
Qed.

Lemma truthy_non_empty o : truthy_opt o = true -> non_empty o.
Proof.
  destruct o as [[| | |[|c s]]|]; cbn; try discriminate;
    intros _; repeat split; discriminate.
Qed.

Lemma keep_candidate id name amount :
  keep (candidate id name amount)
  = negb (Str.is_empty id)
    && (negb (String.eqb name "Unnamed Deal") || ltb zero amount).
Proof.
  unfold keep, candidate.
  rewrite lookup_insert_eq.
  rewrite (lookup_insert_ne _ "deal_id" "deal_name") by done.
  rewrite lookup_insert_eq.
  rewrite !(lookup_insert_ne _ _ "deal_value") by done.
  rewrite lookup_insert_eq. reflexivity.
Qed.

Lemma gt_zero_above o :
  (forall s, o <> Some (VStr s)) ->
  gt_zero o = true <-> above_zero o.
Proof.
  intros Hstr. destruct o as [[|[|]|n|s]|]; cbn; try (split; done).
  - destruct n as [[|]|[|]| |[|] m e]; cbn; split; done.
  - by destruct (Hstr s).
Qed.

Lemma candidate_value_no_text now headers index row s :
  normalize_row now headers index row !! "deal_value" <> Some (VStr s).
Proof.
  rewrite normalize_row_deal_value.
  destruct (fields headers row !! "deal_value") as [v|] eqn:Hv; [|done].
  apply fields_lookup_coerced in Hv as [x ->]; [|done].
  unfold coerce, isNaN. cbn [String.eqb Ascii.eqb Bool.eqb].
  destruct x as [|[|]|n|t]; cbn; try done.
  - by destruct n.
  - by destruct (parseFloat _).
Qed.

(** On a candidate, the callback holds exactly when the rule does. *)
Lemma keep_spec_keeps now headers index row :
  keep (normalize_row now headers index row) = true
  <-> spec_keeps (normalize_row now headers index row).
Proof.
  unfold keep, spec_keeps.
  rewrite normalize_row_id_truthy. cbn [andb].
  rewrite orb_true_iff, strict_ne_string_spec.
  rewrite (gt_zero_above _ (candidate_value_no_text now headers index row)).
  split; [intros H; split; [|done] | by intros [_ H]].
  apply truthy_non_empty, normalize_row_id_truthy.
Qed.

Lemma filter_agrees (f : deal -> bool) (P : deal -> Prop)
    `{forall d, Decision (P d)} (l : list deal) :
  (forall d, d ∈ l -> f d = true <-> P d) ->
  List.filter f l = filter P l.
Proof.
  induction l as [|d l IH]; intros Hl; [done|].
  rewrite filter_cons. cbn [List.filter].
  assert (Hd : f d = true <-> P d) by (apply Hl; left).
  rewrite IH by (intros d' Hd'; apply Hl; by right).
  destruct (f d) eqn:Hf, (decide (P d)) as [HP|HP]; try done.
  - destruct HP. by apply Hd.
  - apply Hd in HP. discriminate HP.
Qed.

(** C4: the result is the list of candidates filtered by the rule: among
    the candidates after default-fill, the filter keeps exactly those with
    a non-empty [deal_id] and either a name other than [Unnamed Deal] or a
    [deal_value] above zero, in their order; a row that gives a synthesized
    id, the default name and value 0 is dropped, one that gives the default
    name and value 5 is kept, and one with a real name and value 0 is
    kept. *)
Theorem filter_rule (now : nat -> Z) (headers : list string)
    (rows : list (list value)) :
  deals_of_rows now headers rows
  = filter spec_keeps (normalize now headers rows)
  /\ (forall d,
        d ∈ deals_of_rows now headers rows
        <-> d ∈ normalize now headers rows /\ spec_keeps d)
  /\ deals_of_rows now filter_headers [[VStr ""; VStr ""; VStr "0"]] = []
  /\ deals_of_rows now filter_headers [[VStr ""; VStr ""; VStr "5"]]
     = [filled (synthesized_id (now 0%nat) 0) "Unnamed Deal" (of_Z 5)]
  /\ deals_of_rows now filter_headers [[VStr ""; VStr "Acme"; VStr "0"]]
     = [filled (synthesized_id (now 0%nat) 0) "Acme" zero]
  /\ (forall t index,
        keep (candidate (synthesized_id t index) "Unnamed Deal" zero) = false)
  /\ (forall id, id <> "" -> keep (candidate id "Unnamed Deal" (of_Z 5)) = true)
  /\ (forall id name,
        id <> "" -> name <> "Unnamed Deal" -> keep (candidate id name zero) = true).
Proof.
  assert (Hlist : deals_of_rows now headers rows
                  = filter spec_keeps (normalize now headers rows)).
  { unfold deals_of_rows. apply filter_agrees.
    intros d (index & row & _ & ->)%elem_of_normalize.
    apply keep_spec_keeps. }
  split; [exact Hlist|]. split.
  { intros d. rewrite Hlist, list_elem_of_filter. tauto. }
  split; [vm_compute; reflexivity|].
  split; [vm_compute; reflexivity|].
  split; [vm_compute; reflexivity|].
  split; [|split].
  - intros t i. by rewrite keep_candidate.
  - intros id Hid. rewrite keep_candidate. by destruct id.
  - intros id name Hid Hname. rewrite keep_candidate.
    destruct id; [done|]. cbn.
    destruct (String.eqb_spec name "Unnamed Deal"); done.
Qed.

Lemma filter_rule_witness :
  deals_of_rows (fun _ => 0) example_headers example_rows
  = filter spec_keeps (normalize (fun _ => 0) example_headers example_rows)
  /\ keep (candidate "D7" "Unnamed Deal" (of_Z 5)) = true.
Proof.
  split.
  - exact (proj1 (filter_rule (fun _ => 0) example_headers example_rows)).
  - refine (proj1 (proj2 (proj2 (proj2 (proj2 (proj2 (proj2
              (filter_rule (fun _ => 0) example_headers example_rows)))))))
              "D7" _).
    discriminate.
Defined.

(** ** Unparseable [process_days] *)

(** C5: when the cell under the (last) [process_days] header is text that
    [parseInt] cannot read, the record of that row has [process_days] equal
    to [null]; the row is mapped like any other and the batch is delivered,
    not rejected. *)
Theorem unparseable_process_days (now : nat -> Z) (headers : list string)
    (rows : list (list value)) (index c : nat) (row : list value) (s : string) :
  rows !! index = Some row ->
  headers !! c = Some "process_days" ->
  (forall c', (c < c')%nat -> headers !! c' <> Some "process_days") ->
  row !! c = Some (VStr s) ->
  is_nan (parseInt10 s) = true ->
  (exists d,
      normalize now headers rows !! index = Some d
      /\ d !! "process_days" = Some VNull
      /\ d !! "process_days" <> Some (VNum zero))
  /\ length (normalize now headers rows) = length rows
  /\ deals_of_body now (Rows headers rows)
     = Fulfilled (deals_of_rows now headers rows).
Proof.
  intros Hrow Hc Hlast Hcell Hnan. repeat split.
  - exists (normalize_row now headers index row).
    assert (Hd : normalize_row now headers index row !! "process_days"
                 = Some VNull).
    { rewrite normalize_row_process_days.
      rewrite (fields_lookup_last headers row "process_days" c) by done.
      unfold cell. rewrite Hcell. cbn. unfold isNaN. cbn. by rewrite Hnan. }
    repeat split.
    + unfold normalize. by rewrite list_lookup_imap, Hrow.
    + done.
    + by rewrite Hd.
  - apply length_imap.
  - destruct rows; [done | reflexivity].
Qed.

Lemma unparseable_process_days_witness :
  is_nan (parseInt10 "N/A") = true
  /\ exists d,
      normalize (fun _ => 0) ["deal_id"; "process_days"]
        [[VStr "D1"; VStr "N/A"]] !! 0%nat = Some d
      /\ d !! "process_days" = Some VNull
      /\ d !! "process_days" <> Some (VNum zero).
Proof.
  split; [reflexivity|].
  refine (proj1 (unparseable_process_days (fun _ => 0)
                   ["deal_id"; "process_days"] [[VStr "D1"; VStr "N/A"]]
                   0 1 [VStr "D1"; VStr "N/A"] "N/A"
                   eq_refl eq_refl _ eq_refl eq_refl)).
  intros [|[|[|c']]] Hlt; cbn; first [lia | discriminate].
Defined.

(** ** Integers as numbers *)

Section Rounding.

Lemma shr_1_nonneg mrs : 0 <= shr_m mrs -> 0 <= shr_m (shr_1 mrs).
Proof.
  destruct mrs as [m r s]. cbn [shr_m].
  destruct m as [|[p|p|]|p]; cbn; lia.
Qed.

Lemma iter_shr_1_nonneg p : forall mrs,
  0 <= shr_m mrs -> 0 <= shr_m (SpecFloat.iter_pos shr_1 p mrs).
Proof.
  induction p as [p IH|p IH|]; intros mrs Hm; cbn [SpecFloat.iter_pos].
  - apply IH, IH. by apply shr_1_nonneg.
  - by apply IH, IH.
  - by apply shr_1_nonneg.
Qed.

Lemma shr_record_of_loc_m m l : shr_m (shr_record_of_loc m l) = m.
Proof. by destruct l as [|[]]. Qed.

(** Shifting to the right keeps a mantissa non-negative and does not lower
    the exponent. *)
Lemma shr_fexp_bounds m e l :
  0 <= m ->
  0 <= shr_m (fst (shr_fexp prec emax m e l))
  /\ e <= snd (shr_fexp prec emax m e l).
Proof.
  intros Hm. unfold shr_fexp, shr.
  destruct (fexp prec emax (Zdigits2 m + e) - e) as [|p|p]; cbn [fst snd].
  - rewrite shr_record_of_loc_m. lia.
  - split; [|lia]. apply iter_shr_1_nonneg. by rewrite shr_record_of_loc_m.
  - rewrite shr_record_of_loc_m. lia.
Qed.

Lemma round_nearest_even_nonneg m l : 0 <= m -> 0 <= round_nearest_even m l.
Proof.
  intros Hm. destruct l as [|[]]; cbn [round_nearest_even]; try lia.
  destruct (Z.even m); lia.
Qed.

(** Rounding a non-negative mantissa at a non-negative exponent gives a
    whole number or overflows. *)
Lemma binary_round_aux_whole sx mx ex lx :
  0 <= mx -> 0 <= ex ->
  integer_or_infinite (binary_round_aux prec emax sx mx ex lx).
Proof.
  intros Hm He. unfold binary_round_aux.
  pose proof (shr_fexp_bounds mx ex lx Hm) as [Hm1 He1].
  destruct (shr_fexp prec emax mx ex lx) as [mrs1 e1]. cbn [fst snd] in *.
  pose proof (shr_fexp_bounds
                (round_nearest_even (shr_m mrs1) (loc_of_shr_record mrs1))
                e1 loc_Exact (round_nearest_even_nonneg _ _ Hm1)) as [Hm2 He2].
  destruct (shr_fexp prec emax _ e1 loc_Exact) as [mrs2 e2].
  cbn [fst snd] in *.
  destruct (shr_m mrs2) as [|p|p]; [by left| |lia].
  destruct (e2 <=? emax - prec); [left | right; by eexists].
  cbn [is_integer]. apply orb_true_iff. left. apply Z.leb_le. lia.
Qed.

Lemma shr_fexp_exact m e :
  fexp prec emax (Zdigits2 m + e) = e ->
  shr_fexp prec emax m e loc_Exact = (Build_shr_record m false false, e).
Proof. intros H. unfold shr_fexp. by rewrite H, Z.sub_diag. Qed.

Lemma digits2_pos_iter m d :
  digits2_pos (Pos.iter xO m d) = (digits2_pos m + d)%positive.
Proof.
  induction d as [|d IH] using Pos.peano_ind.
  - cbn. by rewrite Pos.add_1_r.
  - rewrite Pos.iter_succ. cbn [digits2_pos]. rewrite IH.
    by rewrite Pos.add_succ_r.
Qed.

Lemma Zpos_iter m d : Zpos (Pos.iter xO m d) = Zpos m * 2 ^ Zpos d.
Proof.
  induction d as [|d IH] using Pos.peano_ind.
  - cbn. lia.
  - rewrite Pos.iter_succ, Pos2Z.inj_xO, IH, Pos2Z.inj_succ.
    rewrite Z.pow_succ_r by lia. lia.
Qed.

(** An integer is rounded to a whole number, unless it overflows. *)
Lemma binary_round_whole sx m :
  integer_or_infinite (binary_round prec emax sx m 0).
Proof.
  unfold binary_round, shl_align.
  destruct (fexp prec emax (Zpos (digits2_pos m) + 0) - 0) as [|p|d] eqn:He;
    try (apply binary_round_aux_whole; lia).
  assert (Hexp : fexp prec emax (Zpos (digits2_pos m) + 0) = Zneg d) by lia.
  assert (Hcanon : fexp prec emax (Zdigits2 (Zpos (Pos.iter xO m d)) + Zneg d)
                   = Zneg d).
  { cbn [Zdigits2]. rewrite digits2_pos_iter. rewrite <- Hexp at 2.
    f_equal. lia. }
  unfold binary_round_aux. rewrite Hexp, (shr_fexp_exact _ _ Hcanon).
  cbn [shr_m loc_of_shr_record round_nearest_even].
  rewrite (shr_fexp_exact _ _ Hcanon). cbn [shr_m].
  destruct (Zneg d <=? emax - prec); [left | right; by eexists].
  cbn [is_integer]. apply orb_true_iff. right. apply Z.eqb_eq.
  rewrite Zpos_iter. cbn [Z.opp]. apply Z.mod_mul.
  apply Z.pow_nonzero; lia.
Qed.

Lemma of_Z_whole z : integer_or_infinite (of_Z z).
Proof.
  unfold of_Z, binary_normalize. destruct z; [by left | |];
    apply binary_round_whole.
Qed.

Lemma parseInt10_whole s :
  is_nan (parseInt10 s) = true \/ integer_or_infinite (parseInt10 s).
Proof.
  unfold parseInt10.
  destruct (match Str.trim_start s with
            | String "+" r => (false, r)
            | String "-" r => (true, r)
            | _ => (false, Str.trim_start s)
            end) as [neg t].
  destruct (Str.span Str.is_digit t) as [ds rest].
  destruct (Str.is_empty ds); [by left | right].
  destruct (digits_value 0 ds =? 0); [by left | apply of_Z_whole].
Qed.

End Rounding.

(** ** The value of a deal *)





(** ** The days of a process *)

Lemma coerce_process_days_text s :
  coerce "process_days" (VStr s) = VNull
  \/ exists n, coerce "process_days" (VStr s) = VNum n
               /\ n = parseInt10 s /\ is_nan n = false
               /\ integer_or_infinite n.
Proof.
  unfold coerce, isNaN. cbn.
  destruct (parseInt10_whole s) as [Hnan|Hwhole].
  - left. by rewrite Hnan.
  - destruct (is_nan (parseInt10 s)) eqn:Hnan; [by left | right].
    by eexists.
Qed.

Lemma coerce_process_days_kept x :
  coerce "process_days" x = VNull
  \/ (exists b, coerce "process_days" x = VBool b)
  \/ exists n, coerce "process_days" x = VNum n /\ is_nan n = false.
Proof.
  destruct x as [|b|n|s].
  - by left.
  - right. left. exists b. by destruct b.
  - unfold coerce, isNaN. cbn. destruct (is_nan n) eqn:Hn; [by left|].
    right. right. by eexists.
  - destruct (coerce_process_days_text s) as [->|(n & -> & _ & Hn & _)];
      [by left|]. right. right. by eexists.
Qed.

(** C8, as the code has it: a [process_days] that is present is never NaN;
    under a text cell it is the whole number read by [parseInt], negative
    when the text starts with a minus sign and infinite when it is beyond
    the range of numbers; a cell that is not text is kept as it is. *)
Theorem process_days_whole (now : nat -> Z) (headers : list string)
    (rows : list (list value)) (d : deal) (v : value) :
  d ∈ normalize now headers rows ->
  d !! "process_days" = Some v ->
  v <> VNull ->
  ((exists b, v = VBool b) \/ exists n, v = VNum n /\ is_nan n = false)
  /\ (forall index row c s,
        headers !! c = Some "process_days" ->
        (forall c', (c < c')%nat -> headers !! c' <> Some "process_days") ->
        row !! c = Some (VStr s) ->
        normalize_row now headers index row !! "process_days" = Some VNull
        \/ exists n,
            normalize_row now headers index row !! "process_days" = Some (VNum n)
            /\ n = parseInt10 s /\ integer_or_infinite n)
  /\ (forall index row c n,
        headers !! c = Some "process_days" ->
        (forall c', (c < c')%nat -> headers !! c' <> Some "process_days") ->
        row !! c = Some (VNum n) -> is_nan n = false ->
        normalize_row now headers index row !! "process_days" = Some (VNum n)).
Proof.
  intros (index & row & Hrow & ->)%elem_of_normalize Hv Hnull.
  split; [|split].
  - rewrite normalize_row_process_days in Hv.
    apply fields_lookup_coerced in Hv as [x ->]; [|done].
    destruct (coerce_process_days_kept x) as [H|[H|H]]; [done | by left | by right].
  - intros index' row' c s Hc Hlast Hcell.
    rewrite normalize_row_process_days.
    rewrite (fields_lookup_last headers row' "process_days" c) by done.
    unfold cell. rewrite Hcell.
    destruct (coerce_process_days_text s) as [->|(n & -> & Hn & _ & Hwhole)];
      [by left | right; by eexists].
  - intros index' row' c n Hc Hlast Hcell Hn.
    rewrite normalize_row_process_days.
    rewrite (fields_lookup_last headers row' "process_days" c) by done.
    unfold cell. rewrite Hcell. unfold coerce, isNaN. cbn. by rewrite Hn.
Qed.

(** C8 as stated fails: a minus sign in the cell gives negative days. *)
Lemma process_days_negative :
  map (fun d : deal => d !! "process_days")
    (normalize (fun _ => 0) ["deal_id"; "process_days"] [[VStr "D1"; VStr "-3"]])
  = [Some (VNum (of_Z (-3)))]
  /\ is_negative (of_Z (-3)) = true
  /\ non_negative_integer (VNum (of_Z (-3))) = false.
Proof. vm_compute. repeat split; reflexivity. Qed.

Lemma process_days_whole_witness :
  (exists b, VNum (of_Z (-3)) = VBool b)
  \/ exists n, VNum (of_Z (-3)) = VNum n /\ is_nan n = false.
Proof.
  refine (proj1 (process_days_whole (fun _ => 0) ["deal_id"; "process_days"]
                   [[VStr "D1"; VStr "-3"]]
                   (normalize_row (fun _ => 0) ["deal_id"; "process_days"] 0
                      [VStr "D1"; VStr "-3"])
                   (VNum (of_Z (-3))) _ _ _)).
  - vm_compute. left.
  - vm_compute. reflexivity.
  - discriminate.
Defined.

(** ** Identifiers of deals *)

Section Identifiers.


Lemma append_nil (s : string) : "" ++ s = s.
Proof. reflexivity. Qed.

Lemma append_cons c (a s : string) : String c a ++ s = String c (a ++ s).
Proof. reflexivity. Qed.





End Identifiers.




(** ** The locator *)

Section Search.

Lemma strip_prefix_app lit : forall x, Str.strip_prefix lit (lit ++ x) = Some x.
Proof.
  induction lit as [|c lit IH]; intros x; [done|].
  rewrite append_cons. cbn [Str.strip_prefix].
  by rewrite Ascii.eqb_refl.
Qed.

Lemma strip_prefix_Some lit : forall s r,
  Str.strip_prefix lit s = Some r -> s = lit ++ r.
Proof.
  induction lit as [|c lit IH]; intros s r H; cbn [Str.strip_prefix] in H.
  - by injection H as ->.
  - destruct s as [|b s]; [done|].
    destruct (Ascii.eqb_spec c b) as [->|]; [|done].
    rewrite append_cons. f_equal. by apply IH.
Qed.

Lemma span_spec f s :
  s = fst (Str.span f s) ++ snd (Str.span f s)
  /\ Str.all f (fst (Str.span f s)) = true
  /\ Str.head_satisfies f (snd (Str.span f s)) = false.
Proof.
  induction s as [|c s (IH1 & IH2 & IH3)]; [done|].
  cbn [Str.span]. destruct (f c) eqn:Hc.
  - destruct (Str.span f s) as [p r]. cbn [fst snd] in *.
    rewrite append_cons. cbn [Str.all]. rewrite Hc, IH2.
    repeat split; [by f_equal | done].
  - cbn [fst snd]. repeat split. cbn. by rewrite Hc.
Qed.

Lemma span_app f id : forall post,
  Str.all f id = true -> Str.head_satisfies f post = false ->
  Str.span f (id ++ post) = (id, post).
Proof.
  induction id as [|c id IH]; intros post Hall Hpost.
  - rewrite append_nil. destruct post as [|b post]; [done|].
    cbn in *. by rewrite Hpost.
  - rewrite append_cons. cbn in *.
    apply andb_prop in Hall as [-> Hall]. by rewrite IH.
Qed.

Lemma match_at_embeds lit s capture :
  match_at lit s = Some capture <-> embeds_at lit s "" capture.
Proof.
  unfold match_at, embeds_at. split.
  - destruct (Str.strip_prefix lit s) as [rest|] eqn:Hlit; [|done].
    apply strip_prefix_Some in Hlit as ->.
    pose proof (span_spec is_id_char rest) as (Hrest & Hall & Hpost).
    destruct (Str.span is_id_char rest) as [c post]. cbn [fst snd] in *.
    destruct c as [|a c]; [done|]. cbn [Str.is_empty]. intros [= <-].
    exists post. rewrite append_nil, Hrest. by repeat split.
  - intros (post & -> & [Hne Hall] & Hpost).
    rewrite append_nil, strip_prefix_app, (span_app _ _ _ Hall Hpost).
    by destruct capture.
Qed.

Lemma embeds_at_cons lit c s pre id :
  embeds_at lit s pre id <-> embeds_at lit (String c s) (String c pre) id.
Proof.
  unfold embeds_at. split; intros (post & H & Hrest); exists post;
    rewrite append_cons in *; (split; [congruence | done]).
Qed.

(** A search that succeeds found the shape somewhere. *)
Lemma search_sound lit s : forall capture,
  search lit s = Some capture -> exists pre, embeds_at lit s pre capture.
Proof.
  induction s as [|c s IH]; intros capture; cbn [search];
    destruct (match_at _ _) as [found|] eqn:Hm.
  - intros [= <-]. exists "". by apply match_at_embeds.
  - done.
  - intros [= <-]. exists "". by apply match_at_embeds.
  - intros [pre H]%IH. exists (String c pre). by apply embeds_at_cons.
Qed.

(** The search returns the identifier of the leftmost place. *)
Lemma search_complete lit id pre : forall s,
  embeds_at lit s pre id ->
  (forall pre' id',
     (String.length pre' < String.length pre)%nat -> ~ embeds_at lit s pre' id') ->
  search lit s = Some id.
Proof.
  induction pre as [|c pre IH]; intros s Hat Hfirst.
  - apply match_at_embeds in Hat.
    destruct s; cbn [search]; by rewrite Hat.
  - destruct s as [|b s].
    { destruct Hat as (post & H & _). by rewrite append_cons in H. }
    assert (b = c) as ->.
    { destruct Hat as (post & H & _). rewrite append_cons in H. congruence. }
    cbn [search]. destruct (match_at lit (String c s)) as [found|] eqn:Hm.
    { apply match_at_embeds in Hm. destruct (Hfirst "" found); [cbn; lia | done]. }
    apply IH; [by apply (embeds_at_cons lit c)|].
    intros pre' id' Hlt H%(embeds_at_cons lit c).
    apply (Hfirst (String c pre') id'); [cbn; lia | done].
Qed.

Lemma search_first lit s id : embeds_first lit s id -> search lit s = Some id.
Proof. intros (pre & Hat & Hfirst). by apply (search_complete lit id pre). Qed.

Lemma search_no_shape lit s : ~ has_shape lit s -> search lit s = None.
Proof.
  intros Hno. destruct (search lit s) as [c|] eqn:Hs; [|done].
  apply search_sound in Hs as [pre H]. destruct Hno. by exists pre, c.
Qed.

(** Conversely, what a search returns is the identifier of the leftmost
    place. *)
Lemma search_embeds_first lit s : forall id,
  search lit s = Some id -> embeds_first lit s id.
Proof.
  induction s as [|c s IH]; intros id; cbn [search];
    destruct (match_at _ _) as [found|] eqn:Hm; try done;
    try (intros [= <-]; exists ""; split;
         [by apply match_at_embeds | cbn; intros; lia]).
  intros (pre & Hat & Hfirst)%IH. exists (String c pre). split.
  - by apply embeds_at_cons.
  - intros [|b pre'] id' Hlt Hat'.
    + apply match_at_embeds in Hat'. congruence.
    + assert (b = c) as ->.
      { destruct Hat' as (post & H & _). rewrite append_cons in H. congruence. }
      apply embeds_at_cons in Hat'.
      apply (Hfirst pre' id'); [cbn in Hlt; lia | done].
Qed.

Lemma trim_end_spec s :
  exists r, s = Str.trim_end s ++ r /\ Str.all Str.is_white_space r = true.
Proof.
  induction s as [|c s (r & Hs & Hr)]; [by exists ""|].
  cbn [Str.trim_end]. destruct (Str.trim_end s) as [|a t] eqn:Ht.
  - rewrite append_nil in Hs. subst r.
    destruct (Str.is_white_space c) eqn:Hc.
    + exists (String c s). cbn [Str.all]. by rewrite Hc, Hr.
    + by exists s.
  - exists r. split; [|done]. rewrite append_cons. by f_equal.
Qed.

(** Trimming only takes white space away, at both ends. *)
Lemma trim_spec s :
  exists l r,
    s = l ++ Str.trim s ++ r
    /\ Str.all Str.is_white_space l = true
    /\ Str.all Str.is_white_space r = true.
Proof.
  unfold Str.trim, Str.trim_start.
  pose proof (span_spec Str.is_white_space s) as (Hs & Hl & _).
  destruct (trim_end_spec (snd (Str.span Str.is_white_space s)))
    as (r & Ht & Hr).
  exists (fst (Str.span Str.is_white_space s)), r.
  by rewrite <- Ht.
Qed.

Lemma first_match_cons_found p ps input id :
  embeds_first p input id -> first_match (p :: ps) input = Some id.
Proof.
  intros H. cbn [first_match]. rewrite (search_first _ _ _ H).
  destruct H as (pre & (post & _ & [Hne _] & _) & _). by destruct id.
Qed.

Lemma first_match_cons_skip p ps input :
  ~ has_shape p input -> first_match (p :: ps) input = first_match ps input.
Proof. intros H. cbn [first_match]. by rewrite (search_no_shape _ _ H). Qed.

Lemma extract_with_separator input :
  has_separator input = true ->
  extractSpreadsheetId input = first_match patterns input.
Proof.
  unfold has_separator, extractSpreadsheetId.
  by destruct (Str.includes "/" input), (Str.includes "?" input).
Qed.

Lemma extract_bare input :
  has_separator input = false ->
  extractSpreadsheetId input = Some (Str.trim input).
Proof.
  unfold has_separator, extractSpreadsheetId.
  by destruct (Str.includes "/" input), (Str.includes "?" input).
Qed.

End Search.

(** Where the shape is present, the search finds something. *)
Lemma search_finds lit pre : forall s id,
  embeds_at lit s pre id -> exists found, search lit s = Some found.
Proof.
  induction pre as [|c pre IH]; intros s id Hat.
  - apply match_at_embeds in Hat. exists id.
    destruct s; cbn [search]; by rewrite Hat.
  - destruct s as [|b s].
    { destruct Hat as (post & H & _). by rewrite append_cons in H. }
    assert (b = c) as ->.
    { destruct Hat as (post & H & _). rewrite append_cons in H. congruence. }
    cbn [search]. destruct (match_at lit (String c s)); [by eexists|].
    apply (IH s id). by apply (embeds_at_cons lit c).
Qed.

Lemma no_shape_of_search lit s : search lit s = None -> ~ has_shape lit s.
Proof.
  intros Hs (pre & id & Hat).
  destruct (search_finds lit pre s id Hat) as [found Hfound]. congruence.
Qed.

(** * Further properties of the code *)

(** ** The shape of a record *)

Section Shape.

Variable now : nat -> Z.
Variable headers : list string.

Lemma forEach_lookup_cell hs : forall colIndex row o k v,
  k <> "__proto__" ->
  own (forEach_header hs colIndex row o) !! k = Some v ->
  own o !! k = Some v \/ exists c, v = coerce k (cell row c).
Proof.
  induction hs as [|h rest IH]; intros colIndex row o k v Hk Hv; [by left|].
  cbn in Hv. apply IH in Hv as [Hv|Hv]; [|by right|done].
  destruct (decide (h = k)) as [->|Hne].
  - rewrite assign_lookup_same in Hv by done.
    injection Hv as <-. right. eauto.
  - rewrite assign_lookup_other in Hv by done. by left.
Qed.

Lemma fields_lookup_cell row k v :
  k <> "__proto__" -> fields headers row !! k = Some v ->
  exists c, v = coerce k (cell row c).
Proof.
  intros Hk Hv. apply forEach_lookup_cell in Hv as [Hv|Hv]; done.
Qed.

Lemma forEach_is_Some hs : forall colIndex row o k,
  k <> "__proto__" ->
  k ∈ hs \/ is_Some (own o !! k) ->
  is_Some (own (forEach_header hs colIndex row o) !! k).
Proof.
  induction hs as [|h rest IH]; intros colIndex row o k Hk Hin; cbn.
  - destruct Hin as [Hin|Hin]; [by apply elem_of_nil in Hin | done].
  - apply IH; [done|].
    destruct (decide (h = k)) as [->|Hne].
    + right. by rewrite assign_lookup_same.
    + destruct Hin as [Hin|Hin].
      * apply elem_of_cons in Hin as [->|Hin]; [done | by left].
      * right. by rewrite assign_lookup_other.
Qed.

Lemma normalize_row_broker_name index row :
  normalize_row now headers index row !! "broker_name"
  = Some (or_else (fields headers row !! "broker_name") (VStr "Unknown")).
Proof.
  unfold normalize_row, fill_defaults, fill_default, fill_id.
  rewrite !lookup_insert_ne by done. rewrite lookup_insert_eq.
  rewrite !lookup_insert_ne by done.
  destruct (truthy_opt _); [done|]. by rewrite lookup_insert_ne.
Qed.

Lemma normalize_row_status index row :
  normalize_row now headers index row !! "status"
  = Some (or_else (fields headers row !! "status") (VStr "Unknown")).
Proof.
  unfold normalize_row, fill_defaults, fill_default, fill_id.
  rewrite !lookup_insert_ne by done. rewrite lookup_insert_eq.
  rewrite !lookup_insert_ne by done.
  destruct (truthy_opt _); [done|]. by rewrite lookup_insert_ne.
Qed.

Lemma normalize_row_other index row k :
  k ∉ required_fields ->
  normalize_row now headers index row !! k = fields headers row !! k.
Proof.
  unfold required_fields. rewrite !not_elem_of_cons.
  intros (H1 & H2 & H3 & H4 & H5 & _).
  unfold normalize_row, fill_defaults, fill_default, fill_id.
  rewrite !lookup_insert_ne by done.
  destruct (truthy_opt _); [done|]. by rewrite lookup_insert_ne.
Qed.

Lemma or_else_filled a b :
  truthy b = true -> truthy (or_else a b) = true.
Proof.
  intros Hb. destruct a as [v|]; cbn; [|done].
  by destruct (truthy v) eqn:Hv.
Qed.

Lemma or_else_zero a :
  truthy (or_else a (VNum zero)) = true \/ or_else a (VNum zero) = VNum zero.
Proof.
  destruct a as [v|]; cbn; [|by right].
  destruct (truthy v) eqn:Hv; [by left | by right].
Qed.

Lemma normalize_row_required index row k :
  k ∈ required_fields ->
  is_Some (normalize_row now headers index row !! k).
Proof.
  unfold required_fields. rewrite !elem_of_cons, elem_of_nil.
  intros [->|[->|[->|[->|[->|[]]]]]].
  - rewrite normalize_row_deal_id. by destruct (truthy_opt _) eqn:H;
      [destruct (fields headers row !! "deal_id")|].
  - by rewrite normalize_row_deal_name.
  - by rewrite normalize_row_broker_name.
  - by rewrite normalize_row_status.
  - by rewrite normalize_row_deal_value.
Qed.

End Shape.

(** X1: every record the map callback builds has the five required
    fields; its [deal_id], [deal_name], [broker_name] and [status] are
    truthy, so never [null] nor empty, and its [deal_value] is truthy or
    is exactly 0. *)
Theorem required_fields_filled (now : nat -> Z) (headers : list string)
    (rows : list (list value)) (d : deal) :
  d ∈ normalize now headers rows ->
  exists id name broker status amount,
    d !! "deal_id" = Some id /\ truthy id = true
    /\ d !! "deal_name" = Some name /\ truthy name = true
    /\ d !! "broker_name" = Some broker /\ truthy broker = true
    /\ d !! "status" = Some status /\ truthy status = true
    /\ d !! "deal_value" = Some amount
    /\ (truthy amount = true \/ amount = VNum zero).
Proof.
  intros (index & row & _ & ->)%elem_of_normalize.
  pose proof (normalize_row_id_truthy now headers index row) as Hid.
  destruct (normalize_row now headers index row !! "deal_id") as [id|] eqn:Eid;
    [|done].
  exists id. do 4 eexists.
  rewrite normalize_row_deal_name, normalize_row_broker_name,
    normalize_row_status, normalize_row_deal_value.
  repeat split; try done; try by apply or_else_filled.
  apply or_else_zero.
Qed.

Lemma required_fields_filled_witness :
  exists id name broker status amount,
    normalize_row (fun _ => 0) ["deal_name"] 0 [VStr ""] !! "deal_id" = Some id
    /\ truthy id = true
    /\ normalize_row (fun _ => 0) ["deal_name"] 0 [VStr ""] !! "deal_name"
       = Some name /\ truthy name = true
    /\ normalize_row (fun _ => 0) ["deal_name"] 0 [VStr ""] !! "broker_name"
       = Some broker /\ truthy broker = true
    /\ normalize_row (fun _ => 0) ["deal_name"] 0 [VStr ""] !! "status"
       = Some status /\ truthy status = true
    /\ normalize_row (fun _ => 0) ["deal_name"] 0 [VStr ""] !! "deal_value"
       = Some amount
    /\ (truthy amount = true \/ amount = VNum zero).
Proof.
  refine (required_fields_filled (fun _ => 0) ["deal_name"] [[VStr ""]] _ _).
  vm_compute. left.
Defined.

(** X2: all records of one table have the same shape: every header other
    than [__proto__] is a field of every record, also when the row is too
    short to have the cell, and a record has no field besides the headers
    and the five required fields. *)
Theorem uniform_shape (now : nat -> Z) (headers : list string)
    (rows : list (list value)) (d : deal) :
  d ∈ normalize now headers rows ->
  (forall h, h ∈ headers -> h <> "__proto__" -> is_Some (d !! h))
  /\ (forall k, is_Some (d !! k) -> k ∈ headers \/ k ∈ required_fields).
Proof.
  intros (index & row & _ & ->)%elem_of_normalize. split.
  - intros h Hin Hh. destruct (decide (h ∈ required_fields)) as [Hreq|Hreq].
    + by apply normalize_row_required.
    + rewrite normalize_row_other by done.
      apply forEach_is_Some; [done | by left].
  - intros k Hk. destruct (decide (k ∈ required_fields)) as [Hreq|Hreq];
      [by right | left].
    rewrite normalize_row_other in Hk by done.
    destruct (decide (k ∈ headers)) as [Hin|Hout]; [done|].
    unfold fields in Hk. rewrite forEach_lookup_absent in Hk by done.
    cbn in Hk. rewrite lookup_empty in Hk. by destruct Hk.
Qed.

Lemma uniform_shape_witness :
  is_Some (normalize_row (fun _ => 0) ["deal_id"; "notes"] 0 [VStr "D1"]
             !! "notes").
Proof.
  refine (proj1 (uniform_shape (fun _ => 0) ["deal_id"; "notes"]
                   [[VStr "D1"]] _ _) "notes" _ _).
  - vm_compute. left.
  - right. left.
  - discriminate.
Defined.

(** X3: under a header that is neither coerced nor refilled, the field of
    a record is the cell of the last column with that header, unchanged;
    it is [null] when the row ends before that column. *)
Theorem plain_fields_pass_through (now : nat -> Z) (headers : list string)
    (index : nat) (row : list value) (h : string) (c : nat) :
  plain_header h ->
  headers !! c = Some h ->
  (forall c', (c < c')%nat -> headers !! c' <> Some h) ->
  normalize_row now headers index row !! h = Some (cell row c)
  /\ (forall v, row !! c = Some v ->
        normalize_row now headers index row !! h = Some v)
  /\ ((length row <= c)%nat ->
      normalize_row now headers index row !! h = Some VNull).
Proof.
  intros (Hproto & Hvalue & Hdays & Hreq) Hc Hlast.
  assert (Hfield : normalize_row now headers index row !! h
                   = Some (cell row c)).
  { rewrite normalize_row_other by done.
    rewrite (fields_lookup_last headers row h c) by done.
    unfold coerce.
    destruct (String.eqb_spec h "deal_value") as [->|_]; [done|].
    by destruct (String.eqb_spec h "process_days") as [->|_]. }
  split; [done|split].
  - intros v Hv. rewrite Hfield. unfold cell. by rewrite Hv.
  - intros Hshort. rewrite Hfield. unfold cell.
    by rewrite (lookup_ge_None_2 row c).
Qed.

Lemma plain_fields_pass_through_witness :
  normalize_row (fun _ => 0) ["deal_id"; "Opportunity"; "lost reason"] 0
    [VStr "D1"; VStr "2025-01-03"] !! "lost reason" = Some VNull.
Proof.
  refine (proj2 (proj2 (plain_fields_pass_through (fun _ => 0)
                          ["deal_id"; "Opportunity"; "lost reason"] 0
                          [VStr "D1"; VStr "2025-01-03"] "lost reason" 2 _
                          eq_refl _)) _).
  - unfold plain_header, required_fields.
    rewrite !not_elem_of_cons. repeat split; try discriminate.
    apply not_elem_of_nil.
  - intros [|[|[|c']]] Hlt; cbn; first [lia | discriminate].
  - cbn. lia.
Defined.

(** ** Blank rows, currency marks and the clock *)

Section Blank.

Lemma cell_blank row c : Forall blank_cell row -> blank_cell (cell row c).
Proof.
  intros Hrow. unfold cell. destruct (row !! c) as [v|] eqn:Hv; [|by left].
  by apply (Forall_lookup_1 _ _ _ _ Hrow Hv).
Qed.

Lemma or_else_blank_name v :
  blank_cell v ->
  or_else (Some (coerce "deal_name" v)) (VStr "Unnamed Deal")
  = VStr "Unnamed Deal".
Proof. by intros [->| ->]. Qed.

Lemma or_else_blank_value v :
  blank_cell v ->
  or_else (Some (coerce "deal_value" v)) (VNum zero) = VNum zero.
Proof. by intros [->| ->]. Qed.

Lemma keep_blank_row now headers index row :
  Forall blank_cell row -> keep (normalize_row now headers index row) = false.
Proof.
  intros Hrow. unfold keep.
  rewrite normalize_row_deal_name, normalize_row_deal_value.
  assert (Hname : or_else (fields headers row !! "deal_name")
                    (VStr "Unnamed Deal") = VStr "Unnamed Deal").
  { destruct (fields headers row !! "deal_name") as [v|] eqn:Hv; [|done].
    apply fields_lookup_cell in Hv as [c ->]; [|done].
    apply or_else_blank_name, cell_blank, Hrow. }
  assert (Hvalue : or_else (fields headers row !! "deal_value") (VNum zero)
                   = VNum zero).
  { destruct (fields headers row !! "deal_value") as [v|] eqn:Hv; [|done].
    apply fields_lookup_cell in Hv as [c ->]; [|done].
    apply or_else_blank_value, cell_blank, Hrow. }
  rewrite Hname, Hvalue. cbn. apply andb_false_r.
Qed.

Lemma remove_all_app f a : forall b,
  Str.remove_all f (a ++ b) = Str.remove_all f a ++ Str.remove_all f b.
Proof.
  induction a as [|c a IH]; intros b; [done|].
  rewrite append_cons. cbn [Str.remove_all].
  destruct (f c); [done|]. by rewrite append_cons, IH.
Qed.

Lemma fill_id_clock t t' index d :
  truthy_opt (d !! "deal_id") = true -> fill_id t index d = fill_id t' index d.
Proof. unfold fill_id. by intros ->. Qed.

End Blank.

(** X4: a row whose cells are all [null] or empty text, whatever its
    length and whatever the headers, is never in the result; a table with
    only such rows gives the empty result. *)
Theorem blank_rows_dropped (now : nat -> Z) (headers : list string)
    (rows : list (list value)) :
  (forall index row,
     Forall blank_cell row ->
     keep (normalize_row now headers index row) = false
     /\ normalize_row now headers index row ∉ deals_of_rows now headers rows)
  /\ (Forall (Forall blank_cell) rows -> deals_of_rows now headers rows = []).
Proof.
  split.
  - intros index row Hrow.
    pose proof (keep_blank_row now headers index row Hrow) as Hkeep.
    split; [done|]. intros [_ Hin]%elem_of_deals_of_rows. congruence.
  - intros Hrows. destruct (deals_of_rows now headers rows) as [|d ds] eqn:Hd;
      [done|].
    assert (Hin : d ∈ deals_of_rows now headers rows)
      by (rewrite Hd; left).
    apply elem_of_deals_of_rows in Hin as [Hin Hkeep].
    apply elem_of_normalize in Hin as (index & row & Hrow & ->).
    rewrite keep_blank_row in Hkeep; [done|].
    by apply (Forall_lookup_1 _ _ _ _ Hrows Hrow).
Qed.

Lemma blank_rows_dropped_witness :
  deals_of_rows (fun _ => 0) ["deal_id"; "deal_name"; "deal_value"]
    [[VStr ""; VNull]; []; [VNull; VStr ""; VStr ""; VStr ""]] = [].
Proof.
  refine (proj2 (blank_rows_dropped (fun _ => 0)
                   ["deal_id"; "deal_name"; "deal_value"]
                   [[VStr ""; VNull]; []; [VNull; VStr ""; VStr ""; VStr ""]])
            _).
  repeat first [apply Forall_nil_2 | apply Forall_cons_2];
    first [by left | by right].
Defined.

(** X5: a [$] or a [,] anywhere in the text of a [deal_value] cell
    changes nothing: the value stored is the one of the text without
    it. *)
Theorem currency_marks_ignored (a b : string) (m : ascii) :
  is_currency_mark m = true ->
  coerce "deal_value" (VStr (a ++ String m b))
  = coerce "deal_value" (VStr (a ++ b)).
Proof.
  intros Hm. unfold coerce. cbn [String.eqb Ascii.eqb Bool.eqb].
  rewrite !remove_all_app. cbn [Str.remove_all]. by rewrite Hm.
Qed.

Lemma currency_marks_ignored_witness :
  coerce "deal_value" (VStr ("$1" ++ String "," "200.50"))
  = coerce "deal_value" (VStr ("$1" ++ "200.50")).
Proof. exact (currency_marks_ignored "$1" "200.50" "," eq_refl). Defined.

(** X6: the clock is read for nothing else than the missing ids: when
    every row has a [deal_id] that is not falsy, two runs at different
    times give the same candidates and the same result. *)
Theorem clock_only_for_missing_ids (now now' : nat -> Z)
    (headers : list string) (rows : list (list value)) :
  Forall (fun row => truthy_opt (fields headers row !! "deal_id") = true) rows ->
  normalize now headers rows = normalize now' headers rows
  /\ deals_of_rows now headers rows = deals_of_rows now' headers rows.
Proof.
  intros Hrows.
  assert (Hsame : normalize now headers rows = normalize now' headers rows).
  { unfold normalize. apply list_eq. intros i.
    rewrite !list_lookup_imap.
    destruct (rows !! i) as [row|] eqn:Hrow; [|done]. cbn. f_equal.
    unfold normalize_row.
    by rewrite (fill_id_clock (now i) (now' i))
      by apply (Forall_lookup_1 _ _ _ _ Hrows Hrow). }
  split; [done|]. unfold deals_of_rows. by rewrite Hsame.
Qed.

Lemma clock_only_for_missing_ids_witness :
  deals_of_rows (fun _ => 0) ["deal_id"; "deal_name"] twin_rows
  = deals_of_rows (fun i => 1700000000000 + Z.of_nat i)
      ["deal_id"; "deal_name"] twin_rows.
Proof.
  refine (proj2 (clock_only_for_missing_ids (fun _ => 0)
                   (fun i => 1700000000000 + Z.of_nat i)
                   ["deal_id"; "deal_name"] twin_rows _)).
  repeat constructor.
Defined.

(** ** What the locator returns *)

Section Located.

Lemma id_char_plain c :
  is_id_char c = true ->
  Str.is_white_space c = false
  /\ Ascii.eqb c "/" = false /\ Ascii.eqb c "?" = false.
Proof.
  destruct c as [[] [] [] [] [] [] [] []]; vm_compute; intros H;
    first [discriminate H | repeat split].
Qed.

Lemma includes_app c a : forall b,
  Str.includes c (a ++ b) = Str.includes c a || Str.includes c b.
Proof.
  induction a as [|x a IH]; intros b; [done|].
  rewrite append_cons. cbn [Str.includes]. by rewrite IH, orb_assoc.
Qed.

Lemma id_text_no_separator s :
  Str.all is_id_char s = true ->
  Str.includes "/" s = false /\ Str.includes "?" s = false.
Proof.
  induction s as [|c s IH]; [done|]. cbn [Str.all Str.includes].
  intros [Hc Hs]%andb_prop. destruct (IH Hs) as [-> ->].
  destruct (id_char_plain c Hc) as (_ & -> & ->). done.
Qed.

Lemma trim_includes c s :
  Str.includes c s = false -> Str.includes c (Str.trim s) = false.
Proof.
  destruct (trim_spec s) as (l & r & Hs & _ & _). intros Hc.
  rewrite Hs, !includes_app in Hc.
  by destruct (Str.includes c l), (Str.includes c (Str.trim s)).
Qed.

Lemma first_match_id_text ps input id :
  first_match ps input = Some id -> id_text id.
Proof.
  induction ps as [|p ps IH]; [done|]. cbn [first_match].
  destruct (search p input) as [capture|] eqn:Hs; [|done].
  destruct (Str.is_empty capture); cbn [negb]; [done|].
  intros [= <-]. apply search_sound in Hs as (pre & post & _ & Hid & _).
  done.
Qed.

Lemma trim_start_fixed s :
  Str.head_satisfies Str.is_white_space s = false -> Str.trim_start s = s.
Proof.
  unfold Str.trim_start. destruct s as [|c s]; [done|]. cbn. by intros ->.
Qed.

Lemma trim_end_head s :
  Str.head_satisfies Str.is_white_space s = false ->
  Str.head_satisfies Str.is_white_space (Str.trim_end s) = false.
Proof.
  destruct s as [|c s]; [done|]. cbn [Str.trim_end Str.head_satisfies].
  intros Hc. destruct (Str.trim_end s); cbn; by rewrite Hc.
Qed.

Lemma trim_end_idempotent s : Str.trim_end (Str.trim_end s) = Str.trim_end s.
Proof.
  induction s as [|c s IH]; [done|]. cbn [Str.trim_end].
  destruct (Str.trim_end s) as [|a t] eqn:Ht.
  - destruct (Str.is_white_space c) eqn:Hc; [done|]. cbn. by rewrite Hc.
  - cbn [Str.trim_end]. cbn [Str.trim_end] in IH.
    destruct (Str.trim_end t) as [|a' t'] eqn:Ht'.
    + destruct (Str.is_white_space a) eqn:Ha; [done|]. by rewrite IH.
    + by rewrite IH.
Qed.

Lemma trim_start_head s :
  Str.head_satisfies Str.is_white_space (Str.trim_start s) = false.
Proof.
  unfold Str.trim_start.
  by destruct (span_spec Str.is_white_space s) as (_ & _ & H).
Qed.

(** Trimming twice is trimming once. *)
Lemma trim_idempotent s : Str.trim (Str.trim s) = Str.trim s.
Proof.
  unfold Str.trim.
  rewrite (trim_start_fixed (Str.trim_end (Str.trim_start s)))
    by apply trim_end_head, trim_start_head.
  apply trim_end_idempotent.
Qed.

Lemma trim_end_plain s :
  Str.all (fun c => negb (Str.is_white_space c)) s = true -> Str.trim_end s = s.
Proof.
  induction s as [|c s IH]; [done|]. cbn [Str.all Str.trim_end].
  intros [Hc Hs]%andb_prop. rewrite (IH Hs).
  destruct s; [|done]. by destruct (Str.is_white_space c).
Qed.

Lemma trim_id_text s : Str.all is_id_char s = true -> Str.trim s = s.
Proof.
  intros Hs. unfold Str.trim.
  assert (Hplain : Str.all (fun c => negb (Str.is_white_space c)) s = true).
  { induction s as [|c s IH]; [done|]. cbn [Str.all] in *.
    apply andb_prop in Hs as [Hc Hs]. rewrite (IH Hs).
    by destruct (id_char_plain c Hc) as (-> & _). }
  rewrite trim_start_fixed.
  - by apply trim_end_plain.
  - destruct s as [|c s]; [done|]. cbn in *.
    apply andb_prop in Hplain as [Hc _]. by destruct (Str.is_white_space c).
Qed.

(** What comes out of the locator has no separator and is already
    trimmed. *)
Lemma located_identifier_aux input id :
  extractSpreadsheetId input = Some id ->
  Str.includes "/" id = false /\ Str.includes "?" id = false
  /\ Str.trim id = id.
Proof.
  intros Hid. destruct (has_separator input) eqn:Hsep.
  - rewrite extract_with_separator in Hid by done.
    apply first_match_id_text in Hid as [Hne Hall].
    destruct (id_text_no_separator id Hall) as [-> ->].
    by rewrite trim_id_text.
  - rewrite extract_bare in Hid by done. injection Hid as <-.
    apply orb_false_elim in Hsep as [H1 H2].
    by rewrite !trim_includes, trim_idempotent.
Qed.

End Located.

(** X7: an identifier returned by the locator holds no [/] and no [?];
    when the input had a separator, the identifier is not empty and is
    made of letters, digits, dashes and underscores only, so it passes the
    test [!sheetId] of the callers. *)
Theorem located_identifier_clean (input id : string) :
  extractSpreadsheetId input = Some id ->
  Str.includes "/" id = false
  /\ Str.includes "?" id = false
  /\ (has_separator input = true -> id_text id /\ usable (Some id) = Some id).
Proof.
  intros Hid. destruct (has_separator input) eqn:Hsep.
  - rewrite extract_with_separator in Hid by done.
    apply first_match_id_text in Hid as [Hne Hall].
    destruct (id_text_no_separator id Hall) as [-> ->].
    repeat split; try done. by destruct id.
  - rewrite extract_bare in Hid by done. injection Hid as <-.
    apply orb_false_elim in Hsep as [H1 H2].
    by rewrite !trim_includes.
Qed.

Lemma located_identifier_clean_witness :
  Str.includes "/" "1AbC-d_9" = false
  /\ Str.includes "?" "1AbC-d_9" = false
  /\ id_text "1AbC-d_9".
Proof.
  destruct (located_identifier_clean sheet_url "1AbC-d_9" eq_refl)
    as (H1 & H2 & H3).
  exact (conj H1 (conj H2 (proj1 (H3 eq_refl)))).
Defined.

(** X8: the locator leaves alone what it returned: applied to an
    identifier it extracted, from a URL or from a bare input, it returns
    that identifier. *)
Theorem locator_idempotent (input id : string) :
  extractSpreadsheetId input = Some id ->
  extractSpreadsheetId id = Some id.
Proof.
  intros Hid.
  destruct (located_identifier_aux input id Hid) as (H1 & H2 & Htrim).
  rewrite extract_bare by (unfold has_separator; by rewrite H1, H2).
  by rewrite Htrim.
Qed.

Lemma locator_idempotent_witness :
  extractSpreadsheetId "1AbC-d_9" = Some "1AbC-d_9"
  /\ extractSpreadsheetId "a b" = Some "a b".
Proof.
  split.
  - exact (locator_idempotent sheet_url "1AbC-d_9" eq_refl).
  - exact (locator_idempotent "  a b " "a b" eq_refl).
Defined.

(** ** The two asynchronous functions side by side *)

Section Guards.

Variable encodeURIComponent : string -> string.
Variable now : nat -> Z.

Lemma validate_requests fetch spreadsheetId apiKey :
  fst (validateGoogleSheetConnection fetch spreadsheetId apiKey)
  = match usable (extractSpreadsheetId spreadsheetId) with
    | Some sheetId =>
        if blank apiKey then [] else [metadata_url sheetId apiKey]
    | None => []
    end.
Proof.
  unfold validateGoogleSheetConnection.
  destruct (usable _); [|done]. by destruct (blank apiKey).
Qed.

Lemma fetch_requests fetch spreadsheetId apiKey range :
  fst (fetchGoogleSheetData encodeURIComponent fetch now
         spreadsheetId apiKey range)
  = match usable (extractSpreadsheetId spreadsheetId) with
    | Some sheetId =>
        if blank apiKey then []
        else [values_url encodeURIComponent sheetId range apiKey]
    | None => []
    end.
Proof.
  unfold fetchGoogleSheetData.
  destruct (usable _); [|done]. by destruct (blank apiKey).
Qed.

End Guards.

(** X9: the validation and the fetch refuse the same inputs before any
    request, with the same message and whatever the network is; when the
    validation sends its request for an identifier, the fetch sends
    exactly one request too, for the values of that same identifier. *)
Theorem guards_agree (encodeURIComponent : string -> string)
    (fetch fetch' : string -> fetched) (now : nat -> Z)
    (spreadsheetId apiKey range : string) :
  let checked := validateGoogleSheetConnection fetch spreadsheetId apiKey in
  let loaded :=
    fetchGoogleSheetData encodeURIComponent fetch' now
      spreadsheetId apiKey range in
  (fst checked = [] <-> fst loaded = [])
  /\ (fst checked = [] ->
      exists message,
        snd checked = invalid message /\ snd loaded = Rejected message)
  /\ (fst checked <> [] ->
      exists sheetId,
        usable (extractSpreadsheetId spreadsheetId) = Some sheetId
        /\ blank apiKey = false
        /\ fst checked = [metadata_url sheetId apiKey]
        /\ fst loaded = [values_url encodeURIComponent sheetId range apiKey]).
Proof.
  cbn zeta. rewrite validate_requests, fetch_requests.
  unfold validateGoogleSheetConnection, fetchGoogleSheetData.
  destruct (usable (extractSpreadsheetId spreadsheetId)) as [sheetId|];
    [destruct (blank apiKey)|]; cbn [fst snd]; repeat split;
    try done; try by eexists.
Qed.

(** X10: a response that is not a success is turned into a rejection
    chosen by its status alone, 403, 404 or anything else, without a look
    at its body; a failure of the network is passed on with its own
    message; in both cases one request was sent and no deal comes out. *)
Theorem fetch_failures (encodeURIComponent : string -> string)
    (fetch : string -> fetched) (now : nat -> Z)
    (spreadsheetId apiKey range sheetId : string) :
  usable (extractSpreadsheetId spreadsheetId) = Some sheetId ->
  blank apiKey = false ->
  let url := values_url encodeURIComponent sheetId range apiKey in
  let loaded :=
    fetchGoogleSheetData encodeURIComponent fetch now
      spreadsheetId apiKey range in
  fst loaded = [url]
  /\ (forall message, fetch url = Fails message ->
        snd loaded = Rejected message)
  /\ (forall r, fetch url = Responds r -> ok r = false ->
        snd loaded
        = Rejected
            (if status r =? 403 then
               "Access denied. Make sure the sheet is publicly accessible and the API key is valid."
             else if status r =? 404 then
               "Sheet not found. Check the spreadsheet ID and range."
             else "Failed to fetch data: " ++ statusText r)
        /\ forall deals, snd loaded <> Fulfilled deals).
Proof.
  intros Hid Hkey. cbn zeta. unfold fetchGoogleSheetData.
  rewrite Hid, Hkey. cbn [fst snd]. repeat split.
  - intros message ->. reflexivity.
  - rewrite H, H0. cbn [negb].
    destruct (status r =? 403); [done|]. by destruct (status r =? 404).
  - rewrite H, H0. cbn [negb]. intros deals.
    destruct (status r =? 403); [done|]. by destruct (status r =? 404).
Qed.

Lemma fetch_failures_witness :
  snd (fetchGoogleSheetData (fun s => s) (always 500 "Server Error" Missing)
         (fun _ => 0) sheet_url "key" default_range)
  = Rejected "Failed to fetch data: Server Error".
Proof.
  exact (proj1 (proj2 (proj2 (fetch_failures (fun s => s)
                                 (always 500 "Server Error" Missing)
                                 (fun _ => 0) sheet_url "key" default_range
                                 "1AbC-d_9" eq_refl eq_refl))
                  (Response 500 "Server Error" Missing) eq_refl eq_refl)).
Defined.

(** X11: when [fetchGoogleSheetData] is fulfilled, the identifier was
    usable, the key was not blank, the response was a success and held a
    header row and at least one data row; the deals are those rows mapped
    and filtered, so there are no more deals than data rows and the filter
    callback holds of each. *)
Theorem fulfilled_only_from_rows (encodeURIComponent : string -> string)
    (fetch : string -> fetched) (now : nat -> Z)
    (spreadsheetId apiKey range : string) (deals : list deal) :
  snd (fetchGoogleSheetData encodeURIComponent fetch now
         spreadsheetId apiKey range) = Fulfilled deals ->
  exists sheetId r headers rows,
    usable (extractSpreadsheetId spreadsheetId) = Some sheetId
    /\ blank apiKey = false
    /\ fetch (values_url encodeURIComponent sheetId range apiKey) = Responds r
    /\ ok r = true
    /\ values r = Rows headers rows
    /\ rows <> []
    /\ deals = deals_of_rows now headers rows
    /\ (length deals <= length rows)%nat
    /\ Forall (fun d => keep d = true) deals.
Proof.
  unfold fetchGoogleSheetData.
  destruct (usable (extractSpreadsheetId spreadsheetId)) as [sheetId|];
    [|done].
  destruct (blank apiKey) eqn:Hkey; [done|]. cbn [snd].
  destruct (fetch _) as [message|r] eqn:Hfetch; [done|].
  destruct (ok r) eqn:Hok; cbn [negb].
  2:{ destruct (status r =? 403); [done|]. by destruct (status r =? 404). }
  unfold deals_of_body.
  destruct (values r) as [unread| | |headers [|row rows]] eqn:Hvalues; try done.
  intros [= <-]. exists sheetId, r, headers, (row :: rows).
  repeat split; try done.
  - unfold deals_of_rows. etransitivity; [apply filter_length_le|].
    unfold normalize. by rewrite length_imap.
  - apply Forall_forall. intros d Hd.
    by apply elem_of_deals_of_rows in Hd as [_ Hkeep].
Qed.

Lemma fulfilled_only_from_rows_witness :
  exists sheetId r headers rows,
    usable (extractSpreadsheetId sheet_url) = Some sheetId
    /\ blank "key" = false
    /\ always 200 "OK" (Rows example_headers example_rows)
         (values_url (fun s => s) sheetId default_range "key") = Responds r
    /\ ok r = true
    /\ values r = Rows headers rows
    /\ rows <> []
    /\ [example_deal] = deals_of_rows (fun _ => 0) headers rows
    /\ (length [example_deal] <= length rows)%nat
    /\ Forall (fun d => keep d = true) [example_deal].
Proof.
  refine (fulfilled_only_from_rows (fun s => s)
            (always 200 "OK" (Rows example_headers example_rows))
            (fun _ => 0) sheet_url "key" default_range [example_deal] _).
  vm_compute. reflexivity.
Defined.

(** ** The names of the sheets *)

Section SheetNames.

Import Names.

Lemma titles_all_titled ts : titles (map Titled ts) = Some ts.
Proof. induction ts as [|t ts IH]; [done|]. cbn. by rewrite IH. Qed.

Lemma titles_length l ts : titles l = Some ts -> length ts = length l.
Proof.
  revert ts. induction l as [|[t|] l IH]; intros ts; cbn; [by intros [= <-]| |done].
  destruct (titles l) as [ts'|]; [|done]. intros [= <-]. cbn.
  by rewrite (IH ts').
Qed.

End SheetNames.

(** X12: [getSheetNames] always returns at least one name; whenever its
    [catch] block ran it returns the fallback [Sheet1]; it sends no request
    exactly when the identifier is unusable, a blank key being no obstacle;
    and names other than the fallback are the titles of a successful
    answer, one per sheet. *)
Theorem sheet_names_usable (fetch : string -> Names.answered)
    (spreadsheetId apiKey : string) :
  let o := Names.getSheetNames fetch spreadsheetId apiKey in
  Names.names o <> []
  /\ (Names.caught o = true -> Names.names o = Names.fallback)
  /\ (Names.requested o = []
      <-> usable (extractSpreadsheetId spreadsheetId) = None)
  /\ (Names.names o <> Names.fallback ->
      exists sheetId r l,
        usable (extractSpreadsheetId spreadsheetId) = Some sheetId
        /\ Names.requested o = [metadata_url sheetId apiKey]
        /\ fetch (metadata_url sheetId apiKey) = Names.Answers r
        /\ Names.m_ok r = true
        /\ Names.sheets r = Some l
        /\ Names.titles l = Some (Names.names o)
        /\ length (Names.names o) = length l).
Proof.
  cbn zeta. unfold Names.getSheetNames.
  destruct (usable (extractSpreadsheetId spreadsheetId)) as [sheetId|];
    [|by repeat split].
  destruct (fetch _) as [message|r] eqn:Hfetch; [by repeat split|].
  destruct (Names.m_ok r) eqn:Hok; cbn [negb]; [|by repeat split].
  destruct (Names.sheets r) as [[|s l]|] eqn:Hsheets; try by repeat split.
  destruct (Names.titles (s :: l)) as [ts|] eqn:Hts; [|by repeat split].
  cbn [Names.names Names.caught Names.requested].
  pose proof (titles_length _ _ Hts) as Hlen.
  repeat split; try done.
  - intros ->. done.
  - intros _. by exists sheetId, r, (s :: l).
Qed.

(** X13: from a successful answer whose sheets all carry a title,
    [getSheetNames] returns the titles in the order of the answer, after
    one request and without entering its [catch] block. *)
Theorem sheet_names_in_order (fetch : string -> Names.answered)
    (spreadsheetId apiKey sheetId : string) (r : Names.metadata)
    (ts : list string) :
  usable (extractSpreadsheetId spreadsheetId) = Some sheetId ->
  fetch (metadata_url sheetId apiKey) = Names.Answers r ->
  Names.m_ok r = true ->
  Names.sheets r = Some (map Names.Titled ts) ->
  ts <> [] ->
  Names.getSheetNames fetch spreadsheetId apiKey
  = Names.Outcome [metadata_url sheetId apiKey] false ts.
Proof.
  intros Hid Hfetch Hok Hsheets Hne. unfold Names.getSheetNames.
  rewrite Hid. cbn zeta. rewrite Hfetch, Hok, Hsheets. cbn [negb].
  destruct ts as [|t ts]; [done|].
  cbn [map]. change (Names.Titled t :: map Names.Titled ts)
    with (map Names.Titled (t :: ts)).
  by rewrite titles_all_titled.
Qed.

Lemma sheet_names_in_order_witness :
  Names.getSheetNames
    (fun _ => Names.Answers
                (Names.Metadata 200 "OK"
                   (Some (map Names.Titled ["Deals"; "Archive"]))))
    sheet_url ""
  = Names.Outcome [metadata_url "1AbC-d_9" ""] false ["Deals"; "Archive"].
Proof.
  refine (sheet_names_in_order _ sheet_url "" "1AbC-d_9"
            (Names.Metadata 200 "OK"
               (Some (map Names.Titled ["Deals"; "Archive"])))
            ["Deals"; "Archive"] eq_refl eq_refl eq_refl eq_refl _).
  discriminate.
Defined.

(** ** The form *)

Section FormEffects.

Import Loader.

Variable encodeURIComponent : string -> string.
Variable fetch : string -> fetched.
Variable now : nat -> Z.

Lemma requests_of_requests l : requests_of (map Request l) = l.
Proof.
  unfold requests_of. induction l as [|u l IH]; [done|]. cbn. by rewrite IH.
Qed.

Lemma requests_of_app l l' :
  requests_of (l ++ l') = (requests_of l ++ requests_of l')%list.
Proof. apply omap_app. Qed.

Lemma loading_of_requests l : List.filter sets_loading (map Request l) = [].
Proof. induction l as [|u l IH]; [done|]. by cbn. Qed.

Lemma blank_trim apiKey : blank apiKey = Str.is_empty (Str.trim apiKey).
Proof. unfold blank. by destruct apiKey. Qed.

Lemma connection_error_not_empty e : connection_error e <> "".
Proof. destruct e as [[|c m]|]; done. Qed.

(** The four ways through the [try] block. *)
Lemma attempt_cases apiKey sheetId sheetRange :
  let checked := validateGoogleSheetConnection fetch sheetId apiKey in
  let loaded :=
    fetchGoogleSheetData encodeURIComponent fetch now
      sheetId apiKey sheetRange in
  (valid (snd checked) = false
   /\ attempt encodeURIComponent fetch now apiKey sheetId sheetRange
      = (map Request (fst checked)
         ++ report (connection_error (error (snd checked))))%list)
  \/ (valid (snd checked) = true
      /\ exists message,
          snd loaded = Rejected message
          /\ attempt encodeURIComponent fetch now apiKey sheetId sheetRange
             = (map Request (fst checked) ++ map Request (fst loaded)
                ++ report message)%list)
  \/ (valid (snd checked) = true
      /\ snd loaded = Fulfilled []
      /\ attempt encodeURIComponent fetch now apiKey sheetId sheetRange
         = (map Request (fst checked) ++ map Request (fst loaded)
            ++ report "No valid deals found in the sheet")%list)
  \/ (valid (snd checked) = true
      /\ exists dealsData,
          dealsData <> []
          /\ snd loaded = Fulfilled dealsData
          /\ attempt encodeURIComponent fetch now apiKey sheetId sheetRange
             = (map Request (fst checked) ++ map Request (fst loaded)
                ++ [OnDataLoad dealsData; SetLocalError None])%list).
Proof.
  cbn zeta. unfold attempt.
  destruct (validateGoogleSheetConnection fetch sheetId apiKey)
    as [asked validation].
  destruct (fetchGoogleSheetData encodeURIComponent fetch now sheetId apiKey
              sheetRange) as [asked' result].
  cbn [fst snd]. destruct (valid validation); cbn [negb]; [|by left].
  right. destruct result as [[|d ds]|message].
  - right. by left.
  - right. right. split; [done|]. by exists (d :: ds).
  - left. split; [done|]. by exists message.
Qed.

Lemma attempt_no_loading apiKey sheetId sheetRange :
  List.filter sets_loading
    (attempt encodeURIComponent fetch now apiKey sheetId sheetRange) = [].
Proof.
  destruct (attempt_cases apiKey sheetId sheetRange)
    as [[_ ->]|[[_ (m & _ & ->)]|[(_ & _ & ->)|[_ (ds & _ & _ & ->)]]]];
    rewrite !List.filter_app, !loading_of_requests; done.
Qed.

Lemma filter_imap_dropped (f : nat -> list value -> deal) rows :
  (forall i row, Forall blank_cell row -> keep (f i row) = false) ->
  Forall (Forall blank_cell) rows ->
  List.filter keep (imap f rows) = [].
Proof.
  intros Hf Hrows. revert f Hf.
  induction Hrows as [|row rows Hrow Hrows IH]; intros f Hf; [done|].
  cbn. rewrite (Hf 0%nat row Hrow). apply IH.
  intros i row'. apply Hf.
Qed.

Lemma deals_of_blank_rows headers rows :
  Forall (Forall blank_cell) rows -> deals_of_rows now headers rows = [].
Proof.
  intros Hrows. unfold deals_of_rows, normalize.
  apply filter_imap_dropped; [|done].
  intros i row. apply keep_blank_row.
Qed.

End FormEffects.

Section FormInversions.

Variable encodeURIComponent : string -> string.
Variable fetch : string -> fetched.
Variable now : nat -> Z.

(** A validation that succeeds has sent its one request. *)
Lemma valid_sent spreadsheetId apiKey :
  valid (snd (validateGoogleSheetConnection fetch spreadsheetId apiKey)) = true ->
  exists sheetId,
    usable (extractSpreadsheetId spreadsheetId) = Some sheetId
    /\ blank apiKey = false
    /\ fst (validateGoogleSheetConnection fetch spreadsheetId apiKey)
       = [metadata_url sheetId apiKey].
Proof.
  unfold validateGoogleSheetConnection.
  destruct (usable (extractSpreadsheetId spreadsheetId)) as [sheetId|];
    [|done].
  destruct (blank apiKey); [done|]. intros _. by exists sheetId.
Qed.

(** A fetch that is fulfilled has sent its one request, and the filter
    callback holds of what it delivers. *)
Lemma fulfilled_sent spreadsheetId apiKey range deals :
  snd (fetchGoogleSheetData encodeURIComponent fetch now
         spreadsheetId apiKey range) = Fulfilled deals ->
  exists sheetId,
    usable (extractSpreadsheetId spreadsheetId) = Some sheetId
    /\ fst (fetchGoogleSheetData encodeURIComponent fetch now
              spreadsheetId apiKey range)
       = [values_url encodeURIComponent sheetId range apiKey]
    /\ Forall (fun d => keep d = true) deals.
Proof.
  unfold fetchGoogleSheetData.
  destruct (usable (extractSpreadsheetId spreadsheetId)) as [sheetId|];
    [|done].
  destruct (blank apiKey); [done|]. cbn [fst snd].
  intros Hdeals. exists sheetId. repeat split.
  destruct (fetch _) as [message|r]; [done|].
  destruct (negb (ok r)).
  { destruct (status r =? 403); [done|]. by destruct (status r =? 404). }
  unfold deals_of_body in Hdeals.
  destruct (values r) as [unread| | |headers [|row rows]]; try done.
  injection Hdeals as <-. apply Forall_forall. intros d Hd.
  by apply elem_of_deals_of_rows in Hd as [_ Hkeep].
Qed.

Lemma values_url_not_metadata sheetId range apiKey :
  values_url encodeURIComponent sheetId range apiKey
  <> metadata_url sheetId apiKey.
Proof.
  unfold values_url, metadata_url. intros Heq.
  apply String.app_inj, String.app_inj in Heq. discriminate Heq.
Qed.

End FormInversions.

(** X14: [handleLoad] raises the loading flag only after both fields
    passed the blank test, and then lowers it as its very last effect,
    whatever happened in between; with a blank key or a blank sheet field
    it only reports, sends nothing and leaves the flag alone. *)
Theorem loading_flag_bracket (encodeURIComponent : string -> string)
    (fetch : string -> fetched) (now : nat -> Z)
    (apiKey sheetId sheetRange : string) :
  let effects :=
    Loader.handleLoad encodeURIComponent fetch now apiKey sheetId sheetRange in
  (Str.is_empty (Str.trim apiKey) || Str.is_empty (Str.trim sheetId) = true ->
   List.filter sets_loading effects = []
   /\ requests_of effects = []
   /\ exists message, message <> "" /\ effects = Loader.report message)
  /\ (Str.is_empty (Str.trim apiKey) || Str.is_empty (Str.trim sheetId) = false ->
      exists between,
        effects
        = (Loader.SetIsLoading true :: Loader.SetLocalError None
           :: Loader.OnError "" :: between ++ [Loader.SetIsLoading false])%list
        /\ List.filter sets_loading between = []).
Proof.
  cbn zeta. unfold Loader.handleLoad.
  destruct (Str.is_empty (Str.trim apiKey));
    [|destruct (Str.is_empty (Str.trim sheetId))]; cbn [orb];
    (split; [intros H|intros H]); try discriminate H.
  - split; [reflexivity|]. split; [reflexivity|].
    exists "Please enter a Google API Key". by split.
  - split; [reflexivity|]. split; [reflexivity|].
    exists "Please enter a Google Sheets ID or URL". by split.
  - eexists. split; [reflexivity|]. apply attempt_no_loading.
Qed.

Lemma loading_flag_bracket_witness :
  List.filter sets_loading
    (Loader.handleLoad (fun s => s) (always 200 "OK" Missing) (fun _ => 0)
       "  " sheet_url default_range) = []
  /\ requests_of
       (Loader.handleLoad (fun s => s) (always 200 "OK" Missing) (fun _ => 0)
          "  " sheet_url default_range) = []
  /\ exists message,
      message <> ""
      /\ Loader.handleLoad (fun s => s) (always 200 "OK" Missing) (fun _ => 0)
           "  " sheet_url default_range = Loader.report message.
Proof.
  exact (proj1 (loading_flag_bracket (fun s => s) (always 200 "OK" Missing)
                  (fun _ => 0) "  " sheet_url default_range) eq_refl).
Defined.

(** X15: [onDataLoad] is called only with a list of deals that is not
    empty and passed the filter, and only after two requests: the one of
    the validation, which succeeded, and then the one for the values of the
    same identifier, which was fulfilled with that list; the effects are
    then, in this order, the three of the start, the two requests, the
    call of [onDataLoad], the clearing of the error and the lowering of
    the flag. *)
Theorem data_only_after_both_requests (encodeURIComponent : string -> string)
    (fetch : string -> fetched) (now : nat -> Z)
    (apiKey sheetId sheetRange : string) (deals : list deal) :
  Loader.OnDataLoad deals
  ∈ Loader.handleLoad encodeURIComponent fetch now apiKey sheetId sheetRange ->
  deals <> []
  /\ Forall (fun d => keep d = true) deals
  /\ valid (snd (validateGoogleSheetConnection fetch sheetId apiKey)) = true
  /\ snd (fetchGoogleSheetData encodeURIComponent fetch now
            sheetId apiKey sheetRange) = Fulfilled deals
  /\ exists id,
      usable (extractSpreadsheetId sheetId) = Some id
      /\ Loader.handleLoad encodeURIComponent fetch now
           apiKey sheetId sheetRange
         = [Loader.SetIsLoading true; Loader.SetLocalError None;
            Loader.OnError "";
            Loader.Request (metadata_url id apiKey);
            Loader.Request (values_url encodeURIComponent id sheetRange apiKey);
            Loader.OnDataLoad deals; Loader.SetLocalError None;
            Loader.SetIsLoading false]
      /\ requests_of
           (Loader.handleLoad encodeURIComponent fetch now
              apiKey sheetId sheetRange)
         = [metadata_url id apiKey;
            values_url encodeURIComponent id sheetRange apiKey].
Proof.
  unfold Loader.handleLoad, Loader.report.
  destruct (Str.is_empty (Str.trim apiKey)).
  { rewrite !elem_of_cons, elem_of_nil. intros [H|[H|[]]]; discriminate H. }
  destruct (Str.is_empty (Str.trim sheetId)).
  { rewrite !elem_of_cons, elem_of_nil. intros [H|[H|[]]]; discriminate H. }
  rewrite !requests_of_app. cbn [requests_of omap].
  rewrite !elem_of_app, !elem_of_cons, !elem_of_nil.
  intros [[H|[H|[H|[]]]]|[Hin|[H|[]]]]; try discriminate H.
  destruct (attempt_cases encodeURIComponent fetch now apiKey sheetId sheetRange)
    as [[_ Ha]|[[_ (m & _ & Ha)]|[(_ & _ & Ha)|[Hvalid (ds & Hne & Hds & Ha)]]]];
    rewrite Ha in Hin |- *; unfold Loader.report in Hin;
    rewrite !elem_of_app, !elem_of_cons, !elem_of_nil, !list_elem_of_fmap in Hin.
  - destruct Hin as [(u & H & _)|[H|[H|[]]]]; discriminate H.
  - destruct Hin as [(u & H & _)|[(u & H & _)|[H|[H|[]]]]]; discriminate H.
  - destruct Hin as [(u & H & _)|[(u & H & _)|[H|[H|[]]]]]; discriminate H.
  - destruct Hin as [(u & H & _)|[(u & H & _)|[H|[H|[]]]]];
      try discriminate H.
    injection H as ->.
    destruct (valid_sent fetch sheetId apiKey Hvalid) as (id & Hid & _ & Hreq).
    destruct (fulfilled_sent encodeURIComponent fetch now _ _ _ _ Hds)
      as (id' & Hid' & Hreq' & Hkeep).
    assert (id' = id) as -> by congruence.
    repeat split; try done. exists id. split; [done|]. split.
    + by rewrite Hreq, Hreq'.
    + rewrite !requests_of_app, !requests_of_requests, Hreq, Hreq'. done.
Qed.

Lemma data_only_after_both_requests_witness :
  Loader.handleLoad (fun s => s)
    (one_sheet "1AbC-d_9" "key" "Sheet1" (Rows example_headers example_rows))
    (fun _ => 0) "key" sheet_url "Sheet1"
  = [Loader.SetIsLoading true; Loader.SetLocalError None; Loader.OnError "";
     Loader.Request (metadata_url "1AbC-d_9" "key");
     Loader.Request (values_url (fun s => s) "1AbC-d_9" "Sheet1" "key");
     Loader.OnDataLoad [example_deal]; Loader.SetLocalError None;
     Loader.SetIsLoading false].
Proof.
  destruct (data_only_after_both_requests (fun s => s)
              (one_sheet "1AbC-d_9" "key" "Sheet1"
                 (Rows example_headers example_rows))
              (fun _ => 0) "key" sheet_url "Sheet1" [example_deal])
    as (_ & _ & _ & _ & id & Hid & Hlist & _).
  - apply list_elem_of_lookup. exists 5%nat. vm_compute. reflexivity.
  - vm_compute in Hid. injection Hid as <-. exact Hlist.
Defined.

(** X16: when both fields are filled in and the validation fails,
    [handleLoad] reports a message that is never empty, the one of the
    validation or else the default one, and stops: the only request it
    sent is the one of the validation, and the values are never asked
    for. *)
Theorem failed_validation_stops (encodeURIComponent : string -> string)
    (fetch : string -> fetched) (now : nat -> Z)
    (apiKey sheetId sheetRange : string) :
  Str.is_empty (Str.trim apiKey) = false ->
  Str.is_empty (Str.trim sheetId) = false ->
  valid (snd (validateGoogleSheetConnection fetch sheetId apiKey)) = false ->
  let effects :=
    Loader.handleLoad encodeURIComponent fetch now apiKey sheetId sheetRange in
  (exists message,
      message <> ""
      /\ (forall reason,
            error (snd (validateGoogleSheetConnection fetch sheetId apiKey))
            = Some reason ->
            reason <> "" -> message = reason)
      /\ (error (snd (validateGoogleSheetConnection fetch sheetId apiKey)) = None
          \/ error (snd (validateGoogleSheetConnection fetch sheetId apiKey))
             = Some "" ->
          message = "Failed to connect to Google Sheets")
      /\ effects
         = ([Loader.SetIsLoading true; Loader.SetLocalError None;
             Loader.OnError ""]
            ++ map Loader.Request
                 (fst (validateGoogleSheetConnection fetch sheetId apiKey))
            ++ Loader.report message ++ [Loader.SetIsLoading false])%list)
  /\ requests_of effects
     = fst (validateGoogleSheetConnection fetch sheetId apiKey)
  /\ (forall id,
        usable (extractSpreadsheetId sheetId) = Some id ->
        values_url encodeURIComponent id sheetRange apiKey
        ∉ requests_of effects).
Proof.
  intros Hkey Hsheet Hvalid. cbn zeta. unfold Loader.handleLoad.
  rewrite Hkey, Hsheet.
  destruct (attempt_cases encodeURIComponent fetch now apiKey sheetId sheetRange)
    as [[_ Ha]|[[H _]|[[H _]|[H _]]]]; try congruence.
  rewrite Ha.
  assert (Hreq : requests_of
                   ([Loader.SetIsLoading true; Loader.SetLocalError None;
                     Loader.OnError ""]
                    ++ (map Loader.Request
                          (fst (validateGoogleSheetConnection fetch sheetId apiKey))
                        ++ Loader.report
                             (Loader.connection_error
                                (error (snd (validateGoogleSheetConnection
                                               fetch sheetId apiKey)))))
                    ++ [Loader.SetIsLoading false])%list
                 = fst (validateGoogleSheetConnection fetch sheetId apiKey)).
  { rewrite !requests_of_app, requests_of_requests.
    change (requests_of (Loader.report _)) with (@nil string).
    change (requests_of [Loader.SetIsLoading true; _; _]) with (@nil string).
    change (requests_of [Loader.SetIsLoading false]) with (@nil string).
    by rewrite app_nil_l, !app_nil_r. }
  split; [|split].
  - eexists. split; [apply connection_error_not_empty|].
    split; [|split; [|by rewrite <- !app_assoc]].
    + intros reason -> Hreason. by destruct reason.
    + by intros [-> | ->].
  - exact Hreq.
  - intros id Hid. rewrite Hreq, validate_requests, Hid.
    destruct (blank apiKey); [apply not_elem_of_nil|].
    rewrite elem_of_cons, elem_of_nil. intros [Heq|[]].
    by apply values_url_not_metadata in Heq.
Qed.

Lemma failed_validation_stops_witness :
  requests_of
    (Loader.handleLoad (fun s => s) (always 403 "Forbidden" Missing)
       (fun _ => 0) "key" sheet_url default_range)
  = fst (validateGoogleSheetConnection (always 403 "Forbidden" Missing)
           sheet_url "key").
Proof.
  exact (proj1 (proj2 (failed_validation_stops (fun s => s)
                         (always 403 "Forbidden" Missing) (fun _ => 0)
                         "key" sheet_url default_range
                         eq_refl eq_refl eq_refl))).
Defined.

(** X17: a sheet that answers both requests and whose data rows are all
    blank is not an error for [fetchGoogleSheetData], which is fulfilled
    with no deal, but it is one for the form: [handleLoad] reports
    [No valid deals found in the sheet], never calls [onDataLoad], and
    lowers the loading flag. *)
Theorem blank_sheet_reported (encodeURIComponent : string -> string)
    (fetch : string -> fetched) (now : nat -> Z)
    (apiKey sheetId sheetRange id : string) (checked loaded : response)
    (headers : list string) (rows : list (list value)) :
  Str.is_empty (Str.trim apiKey) = false ->
  usable (extractSpreadsheetId sheetId) = Some id ->
  fetch (metadata_url id apiKey) = Responds checked ->
  ok checked = true ->
  fetch (values_url encodeURIComponent id sheetRange apiKey) = Responds loaded ->
  ok loaded = true ->
  values loaded = Rows headers rows ->
  rows <> [] ->
  Forall (Forall blank_cell) rows ->
  snd (fetchGoogleSheetData encodeURIComponent fetch now
         sheetId apiKey sheetRange) = Fulfilled []
  /\ Loader.handleLoad encodeURIComponent fetch now apiKey sheetId sheetRange
     = [Loader.SetIsLoading true; Loader.SetLocalError None; Loader.OnError "";
        Loader.Request (metadata_url id apiKey);
        Loader.Request (values_url encodeURIComponent id sheetRange apiKey);
        Loader.SetLocalError (Some "No valid deals found in the sheet");
        Loader.OnError "No valid deals found in the sheet";
        Loader.SetIsLoading false].
Proof.
  intros Hkey Hid Hmeta Hok Hvalues Hok' Hrows Hne Hblank.
  assert (Hnb : blank apiKey = false) by by rewrite blank_trim.
  assert (Hsheet : Str.is_empty (Str.trim sheetId) = false).
  { destruct (Str.is_empty (Str.trim sheetId)) eqn:Hs; [|done].
    destruct (Str.trim sheetId) as [|c t] eqn:Ht; [|done].
    destruct (has_separator sheetId) eqn:Hsep.
    - destruct (trim_spec sheetId) as (l & r & Hdec & Hl & Hr).
      rewrite Ht, append_nil in Hdec.
      assert (Hws : Str.all Str.is_white_space sheetId = true).
      { rewrite Hdec. clear -Hl Hr. induction l as [|x l IH]; [done|].
        rewrite append_cons. cbn [Str.all] in *.
        apply andb_prop in Hl as [-> Hl]. by apply IH. }
      clear -Hsep Hws. unfold has_separator in Hsep.
      induction sheetId as [|x s IH]; [done|]. cbn [Str.all Str.includes] in *.
      apply andb_prop in Hws as [Hx Hws].
      destruct (Str.includes "/" s), (Str.includes "?" s);
        try (by apply IH; rewrite ?orb_true_r).
      rewrite !orb_false_r in Hsep.
      revert Hx Hsep. clear.
      destruct x as [[] [] [] [] [] [] [] []]; vm_compute; congruence.
    - rewrite extract_bare, Ht in Hid by done. done. }
  assert (Hloaded : fetchGoogleSheetData encodeURIComponent fetch now
                      sheetId apiKey sheetRange
                    = ([values_url encodeURIComponent id sheetRange apiKey],
                       Fulfilled [])).
  { unfold fetchGoogleSheetData. rewrite Hid, Hnb. cbn zeta.
    rewrite Hvalues, Hok'. cbn [negb]. unfold deals_of_body. rewrite Hrows.
    destruct rows as [|row rows']; [done|].
    by rewrite deals_of_blank_rows. }
  split; [by rewrite Hloaded|].
  unfold Loader.handleLoad, Loader.attempt. rewrite Hkey, Hsheet, Hloaded.
  unfold validateGoogleSheetConnection. rewrite Hid, Hnb. cbn zeta.
  rewrite Hmeta, Hok. reflexivity.
Qed.

Lemma blank_sheet_reported_witness :
  snd (fetchGoogleSheetData (fun s => s)
         (one_sheet "1AbC-d_9" "key" "Sheet1"
            (Rows example_headers [[VStr ""; VNull]; []]))
         (fun _ => 0) sheet_url "key" "Sheet1") = Fulfilled [].
Proof.
  refine (proj1 (blank_sheet_reported (fun s => s)
                   (one_sheet "1AbC-d_9" "key" "Sheet1"
                      (Rows example_headers [[VStr ""; VNull]; []]))
                   (fun _ => 0) "key" sheet_url "Sheet1" "1AbC-d_9"
                   (Response 200 "OK" Missing)
                   (Response 200 "OK"
                      (Rows example_headers [[VStr ""; VNull]; []]))
                   example_headers [[VStr ""; VNull]; []]
                   eq_refl eq_refl eq_refl eq_refl eq_refl eq_refl eq_refl _ _)).
  - discriminate.
  - repeat first [apply Forall_nil_2 | apply Forall_cons_2];
      first [by left | by right].
Defined.

(** ** The locator, case by case *)

Section Trimmed.

Lemma trim_end_last s :
  Str.last_satisfies Str.is_white_space (Str.trim_end s) = false.
Proof.
  induction s as [|c s IH]; [done|]. cbn [Str.trim_end].
  destruct (Str.trim_end s) as [|a t] eqn:Ht.
  - destruct (Str.is_white_space c) eqn:Hc; [done|]. cbn. exact Hc.
  - exact IH.
Qed.

Lemma trim_trimmed s : trimmed_of s (Str.trim s).
Proof.
  split; [apply trim_spec|]. unfold Str.trim. split.
  - apply trim_end_head, trim_start_head.
  - apply trim_end_last.
Qed.

Lemma first_match_inversion input id :
  first_match patterns input = Some id ->
  embeds_first "/spreadsheets/d/" input id
  \/ (~ has_shape "/spreadsheets/d/" input /\ embeds_first "/d/" input id)
  \/ (~ has_shape "/spreadsheets/d/" input /\ ~ has_shape "/d/" input
      /\ embeds_first "id=" input id).
Proof.
  unfold patterns. cbn [first_match].
  destruct (search "/spreadsheets/d/" input) as [c1|] eqn:H1.
  { pose proof (search_embeds_first _ _ _ H1) as Hfirst.
    destruct Hfirst as (pre & (post & Hin & [Hne Hall] & Hpost) & Hleft).
    destruct c1 as [|x c1]; [done|]. cbn [Str.is_empty negb].
    intros [= <-]. left. exists pre. split; [|done]. by exists post. }
  apply no_shape_of_search in H1.
  destruct (search "/d/" input) as [c2|] eqn:H2.
  { pose proof (search_embeds_first _ _ _ H2) as Hfirst.
    destruct Hfirst as (pre & (post & Hin & [Hne Hall] & Hpost) & Hleft).
    destruct c2 as [|x c2]; [done|]. cbn [Str.is_empty negb].
    intros [= <-]. right. left. split; [done|].
    exists pre. split; [|done]. by exists post. }
  apply no_shape_of_search in H2.
  destruct (search "id=" input) as [c3|] eqn:H3; [|done].
  pose proof (search_embeds_first _ _ _ H3) as Hfirst.
  destruct Hfirst as (pre & (post & Hin & [Hne Hall] & Hpost) & Hleft).
  destruct c3 as [|x c3]; [done|]. cbn [Str.is_empty negb].
  intros [= <-]. right. right. repeat split; try done.
  exists pre. split; [|done]. by exists post.
Qed.

End Trimmed.

(** C6, as the code has it: an input without [/] and [?] comes back with
    the white space at its two ends removed and nothing else changed; for
    an input with a separator the three patterns are searched in order,
    anywhere in the input, and the result is the identifier that follows
    the leftmost place of the first pattern that is found, so that what
    surrounds an identifier decides as soon as it holds such a place
    itself; an input with a separator and no such place gives [null], and
    nothing else is ever returned. *)
Theorem locator_cases (input : string) :
  (has_separator input = false ->
   extractSpreadsheetId input = Some (Str.trim input)
   /\ trimmed_of input (Str.trim input))
  /\ (forall id,
        has_separator input = true ->
        embeds_first "/spreadsheets/d/" input id ->
        extractSpreadsheetId input = Some id)
  /\ (forall id,
        has_separator input = true ->
        ~ has_shape "/spreadsheets/d/" input ->
        embeds_first "/d/" input id ->
        extractSpreadsheetId input = Some id)
  /\ (forall id,
        has_separator input = true ->
        ~ has_shape "/spreadsheets/d/" input ->
        ~ has_shape "/d/" input ->
        embeds_first "id=" input id ->
        extractSpreadsheetId input = Some id)
  /\ (has_separator input = true ->
      ~ has_shape "/spreadsheets/d/" input ->
      ~ has_shape "/d/" input ->
      ~ has_shape "id=" input ->
      extractSpreadsheetId input = None)
  /\ (forall id,
        has_separator input = true ->
        extractSpreadsheetId input = Some id ->
        embeds_first "/spreadsheets/d/" input id
        \/ (~ has_shape "/spreadsheets/d/" input
            /\ embeds_first "/d/" input id)
        \/ (~ has_shape "/spreadsheets/d/" input /\ ~ has_shape "/d/" input
            /\ embeds_first "id=" input id)).
Proof.
  split; [intros Hsep; split; [by apply extract_bare | apply trim_trimmed]|].
  split; [|split; [|split; [|split]]].
  - intros id Hsep H1. rewrite extract_with_separator by done.
    by apply first_match_cons_found.
  - intros id Hsep N1 H2. rewrite extract_with_separator by done.
    unfold patterns. rewrite first_match_cons_skip by done.
    by apply first_match_cons_found.
  - intros id Hsep N1 N2 H3. rewrite extract_with_separator by done.
    unfold patterns. rewrite !first_match_cons_skip by done.
    by apply first_match_cons_found.
  - intros Hsep N1 N2 N3. rewrite extract_with_separator by done.
    unfold patterns. by rewrite !first_match_cons_skip.
  - intros id Hsep Hid. rewrite extract_with_separator in Hid by done.
    by apply first_match_inversion.
Qed.

(** C6 as stated fails: the input holds the query parameter [id=XYZ], and
    alone that parameter gives [XYZ], but with [gid=7] before it the
    locator returns [7]: the pattern [id=] is also found inside [gid=]. *)
Lemma query_noise_decides :
  embeds_at "id=" gid_url "https://drive.google.com/open?gid=7&" "XYZ"
  /\ extractSpreadsheetId "https://drive.google.com/open?id=XYZ" = Some "XYZ"
  /\ extractSpreadsheetId gid_url = Some "7"
  /\ extractSpreadsheetId gid_url <> Some "XYZ".
Proof.
  split; [|by vm_compute].
  exists "". repeat split. discriminate.
Qed.

Lemma locator_cases_witness :
  extractSpreadsheetId sheet_url = Some "1AbC-d_9"
  /\ extractSpreadsheetId file_url = Some "Q1"
  /\ extractSpreadsheetId open_url = Some "XYZ"
  /\ extractSpreadsheetId gid_url = Some "7"
  /\ extractSpreadsheetId "  1AbC-d_9 " = Some "1AbC-d_9".
Proof.
  split; [|split; [|split; [|split]]].
  - apply (proj1 (proj2 (locator_cases sheet_url))); [reflexivity|].
    apply search_embeds_first. reflexivity.
  - apply (proj1 (proj2 (proj2 (locator_cases file_url)))); [reflexivity| |].
    + apply no_shape_of_search. reflexivity.
    + apply search_embeds_first. reflexivity.
  - apply (proj1 (proj2 (proj2 (proj2 (locator_cases open_url)))));
      [reflexivity| | |].
    + apply no_shape_of_search. reflexivity.
    + apply no_shape_of_search. reflexivity.
    + apply search_embeds_first. reflexivity.
  - apply (proj1 (proj2 (proj2 (proj2 (locator_cases gid_url)))));
      [reflexivity| | |].
    + apply no_shape_of_search. reflexivity.
    + apply no_shape_of_search. reflexivity.
    + apply search_embeds_first. reflexivity.
  - apply (proj1 (locator_cases "  1AbC-d_9 ")). reflexivity.
Defined.
